(** * The session streaming client of the validation page

    A shallow embedding of the research session kept by the [ValidatePage]
    component: the React state cells and refs become one record, every
    callback of the component (the two buttons, the WebSocket handlers, the
    EventSource handlers) becomes a function on that record, and the browser
    is the environment that chooses which callback runs next.

    Conventions of the embedding.
    - A state setter takes effect before the next callback runs; an updater
      passed to [setLines] runs once, in queue order.
    - [idRef.current] is a natural number (the counter stays far below 2^53,
      where JavaScript numbers are exact).
    - Every transport object ever constructed is kept in [conns], in
      construction order; its handlers close over the request of the render
      that constructed it, and [connRef] holds the index of the object the
      ref points to.  The calls of [close] the component makes are recorded
      on the object.
    - Which events a browser fires, and when, is not restricted: what is
      proved of every run holds of the runs a browser produces.  The
      concrete runs below use browser behaviour only: a connection that
      fails fires [error] and then [close] with code 1006, a socket the
      server closes with a close frame fires [close] alone, with the code
      of the frame, and an event source nobody closed goes on delivering
      messages. *)

From Stdlib Require Import String Ascii ZArith Lia Sorted DecimalString.
From stdpp Require Import base numbers option list.

(** ** JavaScript strings

    A string is its sequence of UTF-16 code units. *)

Abbreviation jsstring := (list N).

Definition js (s : string) : jsstring := N_of_ascii <$> list_ascii_of_string s.
Arguments js s%_string : simpl never.

(** ECMAScript [WhiteSpace] and [LineTerminator] code points, the ones
    [String.prototype.trim] strips. *)
Definition isWhiteSpace (c : N) : bool :=
  (c =? 0x0009)%N || (c =? 0x000A)%N || (c =? 0x000B)%N || (c =? 0x000C)%N ||
  (c =? 0x000D)%N || (c =? 0x0020)%N || (c =? 0x00A0)%N || (c =? 0x1680)%N ||
  ((0x2000 <=? c)%N && (c <=? 0x200A)%N) ||
  (c =? 0x2028)%N || (c =? 0x2029)%N || (c =? 0x202F)%N || (c =? 0x205F)%N ||
  (c =? 0x3000)%N || (c =? 0xFEFF)%N.

Fixpoint trimStart (s : jsstring) : jsstring :=
  match s with
  | c :: s' => if isWhiteSpace c then trimStart s' else s
  | [] => []
  end.

Definition trim (s : jsstring) : jsstring :=
  reverse (trimStart (reverse (trimStart s))).

(** [startsWith s p]: [p] is a prefix of [s]. *)
Fixpoint startsWith (s p : jsstring) {struct p} : bool :=
  match p, s with
  | [], _ => true
  | a :: p', b :: s' => (a =? b)%N && startsWith s' p'
  | _ :: _, [] => false
  end.

(** [String.prototype.includes]: [needle] occurs somewhere in [s]. *)
Fixpoint includes (s needle : jsstring) : bool :=
  startsWith s needle ||
  match s with
  | [] => false
  | _ :: s' => includes s' needle
  end.

(** [v || d] for a field that is a string or absent: the empty string and
    [undefined] are both falsy. *)
Definition or_else (v : option jsstring) (d : jsstring) : jsstring :=
  match v with
  | Some (c :: r) => c :: r
  | _ => d
  end.

(** ** Data model *)

(** The payload of a [complete] event; the component hands it on as it is. *)
Record ResearchResult := { json : jsstring }.

Record AuthUser := { user_id : jsstring; user_name : jsstring; user_email : jsstring }.

(** [type LogLine = { id: number; type: string; ts?: string; msg: string }].
    [msg] is optional here because the component itself guards against its
    absence ([last.msg || ""]). *)
Record LogLine := {
  id : nat;
  type : jsstring;
  ts : option jsstring;
  msg : option jsstring
}.

(** A decoded inbound event, the argument [data] of [handleEvent]. *)
Record EventData := {
  data_type : jsstring;
  data_ts : option jsstring;
  data_msg : option jsstring;
  data_result : option ResearchResult
}.

(** The logical request [{ idea, description, token }]. *)
Record Request := {
  req_idea : jsstring;
  req_description : jsstring;
  req_token : jsstring
}.

Inductive CloseCall :=
| CloseWith (code : Z) (reason : jsstring)   (* ws.close(code, reason) *)
| ClosePlain.                                (* ws.close() *)

(** A transport object with what its handlers close over. *)
Inductive Conn :=
| WebSocket (req : Request) (wsCompleted : bool)
            (sent : list Request) (closeCalls : list CloseCall)
| EventSource (req : Request) (closed : bool).

Inductive WsStatus := ws_idle | ws_ws | ws_sse | ws_error.

Record State := {
  user : option AuthUser;
  token : jsstring;
  idea : jsstring;
  description : jsstring;
  showAuthModal : bool;
  running : bool;
  done : bool;
  lines : list LogLine;
  result : option ResearchResult;
  error : jsstring;
  activeTab : jsstring;
  termCollapsed : bool;
  wsStatus : WsStatus;
  idRef : nat;
  connRef : option nat;
  conns : list Conn
}.

Definition init : State := {|
  user := None; token := []; idea := []; description := [];
  showAuthModal := false; running := false; done := false; lines := [];
  result := None; error := []; activeTab := js "overview";
  termCollapsed := false; wsStatus := ws_idle; idRef := 0;
  connRef := None; conns := []
|}.

(** *** Setters, one per state cell or ref *)

Definition setUser v s := {|
  user := v; token := token s; idea := idea s; description := description s;
  showAuthModal := showAuthModal s; running := running s; done := done s;
  lines := lines s; result := result s; error := error s;
  activeTab := activeTab s; termCollapsed := termCollapsed s;
  wsStatus := wsStatus s; idRef := idRef s; connRef := connRef s;
  conns := conns s |}.

Definition setToken v s := {|
  user := user s; token := v; idea := idea s; description := description s;
  showAuthModal := showAuthModal s; running := running s; done := done s;
  lines := lines s; result := result s; error := error s;
  activeTab := activeTab s; termCollapsed := termCollapsed s;
  wsStatus := wsStatus s; idRef := idRef s; connRef := connRef s;
  conns := conns s |}.

Definition setIdea v s := {|
  user := user s; token := token s; idea := v; description := description s;
  showAuthModal := showAuthModal s; running := running s; done := done s;
  lines := lines s; result := result s; error := error s;
  activeTab := activeTab s; termCollapsed := termCollapsed s;
  wsStatus := wsStatus s; idRef := idRef s; connRef := connRef s;
  conns := conns s |}.

Definition setDescription v s := {|
  user := user s; token := token s; idea := idea s; description := v;
  showAuthModal := showAuthModal s; running := running s; done := done s;
  lines := lines s; result := result s; error := error s;
  activeTab := activeTab s; termCollapsed := termCollapsed s;
  wsStatus := wsStatus s; idRef := idRef s; connRef := connRef s;
  conns := conns s |}.

Definition setShowAuthModal v s := {|
  user := user s; token := token s; idea := idea s; description := description s;
  showAuthModal := v; running := running s; done := done s;
  lines := lines s; result := result s; error := error s;
  activeTab := activeTab s; termCollapsed := termCollapsed s;
  wsStatus := wsStatus s; idRef := idRef s; connRef := connRef s;
  conns := conns s |}.

Definition setRunning v s := {|
  user := user s; token := token s; idea := idea s; description := description s;
  showAuthModal := showAuthModal s; running := v; done := done s;
  lines := lines s; result := result s; error := error s;
  activeTab := activeTab s; termCollapsed := termCollapsed s;
  wsStatus := wsStatus s; idRef := idRef s; connRef := connRef s;
  conns := conns s |}.

Definition setDone v s := {|
  user := user s; token := token s; idea := idea s; description := description s;
  showAuthModal := showAuthModal s; running := running s; done := v;
  lines := lines s; result := result s; error := error s;
  activeTab := activeTab s; termCollapsed := termCollapsed s;
  wsStatus := wsStatus s; idRef := idRef s; connRef := connRef s;
  conns := conns s |}.

Definition setLines v s := {|
  user := user s; token := token s; idea := idea s; description := description s;
  showAuthModal := showAuthModal s; running := running s; done := done s;
  lines := v; result := result s; error := error s;
  activeTab := activeTab s; termCollapsed := termCollapsed s;
  wsStatus := wsStatus s; idRef := idRef s; connRef := connRef s;
  conns := conns s |}.

Definition setResult v s := {|
  user := user s; token := token s; idea := idea s; description := description s;
  showAuthModal := showAuthModal s; running := running s; done := done s;
  lines := lines s; result := v; error := error s;
  activeTab := activeTab s; termCollapsed := termCollapsed s;
  wsStatus := wsStatus s; idRef := idRef s; connRef := connRef s;
  conns := conns s |}.

Definition setError v s := {|
  user := user s; token := token s; idea := idea s; description := description s;
  showAuthModal := showAuthModal s; running := running s; done := done s;
  lines := lines s; result := result s; error := v;
  activeTab := activeTab s; termCollapsed := termCollapsed s;
  wsStatus := wsStatus s; idRef := idRef s; connRef := connRef s;
  conns := conns s |}.

Definition setActiveTab v s := {|
  user := user s; token := token s; idea := idea s; description := description s;
  showAuthModal := showAuthModal s; running := running s; done := done s;
  lines := lines s; result := result s; error := error s;
  activeTab := v; termCollapsed := termCollapsed s;
  wsStatus := wsStatus s; idRef := idRef s; connRef := connRef s;
  conns := conns s |}.

Definition setTermCollapsed v s := {|
  user := user s; token := token s; idea := idea s; description := description s;
  showAuthModal := showAuthModal s; running := running s; done := done s;
  lines := lines s; result := result s; error := error s;
  activeTab := activeTab s; termCollapsed := v;
  wsStatus := wsStatus s; idRef := idRef s; connRef := connRef s;
  conns := conns s |}.

Definition setWsStatus v s := {|
  user := user s; token := token s; idea := idea s; description := description s;
  showAuthModal := showAuthModal s; running := running s; done := done s;
  lines := lines s; result := result s; error := error s;
  activeTab := activeTab s; termCollapsed := termCollapsed s;
  wsStatus := v; idRef := idRef s; connRef := connRef s;
  conns := conns s |}.

Definition setIdRef v s := {|
  user := user s; token := token s; idea := idea s; description := description s;
  showAuthModal := showAuthModal s; running := running s; done := done s;
  lines := lines s; result := result s; error := error s;
  activeTab := activeTab s; termCollapsed := termCollapsed s;
  wsStatus := wsStatus s; idRef := v; connRef := connRef s;
  conns := conns s |}.

Definition setConnRef v s := {|
  user := user s; token := token s; idea := idea s; description := description s;
  showAuthModal := showAuthModal s; running := running s; done := done s;
  lines := lines s; result := result s; error := error s;
  activeTab := activeTab s; termCollapsed := termCollapsed s;
  wsStatus := wsStatus s; idRef := idRef s; connRef := v;
  conns := conns s |}.

Definition setConns v s := {|
  user := user s; token := token s; idea := idea s; description := description s;
  showAuthModal := showAuthModal s; running := running s; done := done s;
  lines := lines s; result := result s; error := error s;
  activeTab := activeTab s; termCollapsed := termCollapsed s;
  wsStatus := wsStatus s; idRef := idRef s; connRef := connRef s;
  conns := v |}.

(** Sequencing of effects, read left to right like the statements of a
    callback body. *)
Notation "s |> f" := (f s) (at level 45, left associativity, only parsing).

(** ** The callbacks of the component *)

(** [setLines(prev => [...prev, { ...raw, id: ++idRef.current }])] *)
Definition addLine (raw : EventData) (s : State) : State :=
  let n := S (idRef s) in
  s |> setIdRef n
    |> setLines (lines s ++ [{| id := n; type := data_type raw;
                                ts := data_ts raw; msg := data_msg raw |}]).

Definition closeConn (call : CloseCall) (c : Conn) : Conn :=
  match c with
  | WebSocket req completed sent calls => WebSocket req completed sent (calls ++ [call])
  | EventSource req _ => EventSource req true
  end.

(** [x.close(...)] on the transport object number [c]. *)
Definition closeAt (c : nat) (call : CloseCall) (s : State) : State :=
  s |> setConns (alter (closeConn call) c (conns s)).

(** [if (connRef.current instanceof WebSocket) connRef.current.close(...);
     else (connRef.current as EventSource)?.close();] *)
Definition closeCurrent (call : CloseCall) (s : State) : State :=
  match connRef s with
  | Some c => closeAt c call s
  | None => s
  end.

Definition handleEvent (data : EventData) (s : State) : State :=
  if decide (data_type data = js "ping") then s
  else if decide (data_type data = js "complete") then
    s |> setResult (data_result data)
      |> setDone true |> setRunning false |> setTermCollapsed true
      |> closeCurrent ClosePlain
  else if decide (data_type data = js "error") then
    s |> setError (or_else (data_msg data) (js "Agent error"))
      |> setRunning false
  else addLine data s.

(** The line [es.onerror] writes: two spaces, U+2717, the text, U+2014, the
    rest. *)
Definition connectionLostLine : EventData := {|
  data_type := js "error";
  data_ts := Some [];
  data_msg := Some (js "  " ++ [0x2717%N] ++ js " Connection lost " ++ [0x2014%N]
                      ++ js " is server running on :3001?");
  data_result := None
|}.

Definition connectionFailedMessage : jsstring :=
  js "Server connection failed. Run: cd server && node index.js".

(** [fallbackToSSE(ideaTrimmed, descTrimmed)]; [token] is the variable of the
    enclosing render the function closes over. *)
Definition fallbackToSSE (token ideaTrimmed descTrimmed : jsstring) (s : State) : State :=
  let params := {| req_idea := ideaTrimmed; req_description := descTrimmed;
                   req_token := token |} in
  s |> setWsStatus ws_sse
    |> setConns (conns s ++ [EventSource params false])
    |> setConnRef (Some (length (conns s))).

(** The handlers installed on the EventSource number [c]. *)
Definition es_onmessage (frame : option EventData) (s : State) : State :=
  match frame with
  | Some data => handleEvent data s      (* JSON.parse succeeded *)
  | None => s                            (* ignore *)
  end.

Definition es_onerror (c : nat) (s : State) : State :=
  s |> addLine connectionLostLine
    |> setRunning false |> setWsStatus ws_error |> closeAt c ClosePlain
    |> setError connectionFailedMessage.

(** The handlers installed on the WebSocket number [c], closing over
    [ideaTrimmed], [descTrimmed], [token] (the fields of [req]) and over the
    local [wsCompleted]. *)
Definition ws_onopen (c : nat) (req : Request) (s : State) : State :=
  s |> setWsStatus ws_ws
    |> setConns (alter (fun x => match x with
                                 | WebSocket r completed sent calls =>
                                     WebSocket r completed (sent ++ [req]) calls
                                 | other => other
                                 end) c (conns s)).

Definition markCompleted (x : Conn) : Conn :=
  match x with
  | WebSocket r _ sent calls => WebSocket r true sent calls
  | other => other
  end.

Definition ws_onmessage (c : nat) (frame : option EventData) (s : State) : State :=
  match frame with
  | Some payload =>
      let s1 := if decide (data_type payload = js "complete")
                then s |> setConns (alter markCompleted c (conns s))
                else s in
      handleEvent payload s1
  | None => s                            (* ignore malformed payloads *)
  end.

Definition ws_onerror (c : nat) (req : Request) (s : State) : State :=
  s |> closeAt c ClosePlain
    |> fallbackToSSE (req_token req) (req_idea req) (req_description req).

Definition ws_onclose (req : Request) (wsCompleted : bool) (code : Z) (s : State) : State :=
  if negb wsCompleted && negb (code =? 1000)%Z
  then fallbackToSSE (req_token req) (req_idea req) (req_description req) s
  else s.

(** [startResearch()].  [ctorOk] tells whether [new WebSocket(wsBase)]
    returns ([true]) or throws ([false], the [catch] branch). *)
Definition startResearch (ctorOk : bool) (s : State) : State :=
  match user s with
  | None => s |> setShowAuthModal true
  | Some _ =>
      if bool_decide (trim (idea s) = []) || running s then s
      else
        let s1 := s |> setRunning true |> setDone false |> setLines []
                    |> setResult None |> setError [] |> setTermCollapsed false
                    |> setActiveTab (js "overview") in
        let ideaTrimmed := trim (idea s) in
        let descTrimmed := trim (description s) in
        if ctorOk then
          let ws := WebSocket {| req_idea := ideaTrimmed;
                                 req_description := descTrimmed;
                                 req_token := token s |} false [] [] in
          s1 |> setConns (conns s1 ++ [ws])
             |> setConnRef (Some (length (conns s1)))
        else fallbackToSSE (token s) ideaTrimmed descTrimmed s1
  end.

Definition reset (s : State) : State :=
  s |> closeCurrent (CloseWith 1000 (js "reset"))
    |> setRunning false |> setDone false |> setLines [] |> setResult None
    |> setError [] |> setIdea [] |> setDescription [] |> setWsStatus ws_idle.

(** The continuation of [submitAuth] on success, the mount effect that
    restores a stored session (it needs a non-empty stored token), and
    [logout]. *)
Definition signedIn (u : AuthUser) (t : jsstring) (s : State) : State :=
  s |> setToken t |> setUser (Some u) |> setShowAuthModal false.

Definition storedSession (u : AuthUser) (storedToken : jsstring) (s : State) : State :=
  if bool_decide (storedToken = []) then s
  else s |> setToken storedToken |> setUser (Some u).

Definition logout (s : State) : State :=
  s |> setUser None |> setToken [].

(** The continuation of [openHistoryItem] once the item has been fetched. *)
Definition historyItemOpened (i d : option jsstring) (r : option ResearchResult)
    (s : State) : State :=
  s |> setIdea (or_else i []) |> setDescription (or_else d [])
    |> setResult r |> setDone true |> setRunning false
    |> setActiveTab (js "overview") |> setTermCollapsed true |> setError [].

(** ** The component as a transition system *)

Inductive Action :=
| TypeIdea (v : jsstring)
| TypeDescription (v : jsstring)
| SignedIn (u : AuthUser) (t : jsstring)
| Logout
| HistoryItemOpened (i d : option jsstring) (r : option ResearchResult)
| StartResearch (ctorOk : bool)
| Reset
| WsOpen (c : nat)
| WsMessage (c : nat) (frame : option EventData)
| WsError (c : nat)
| WsClose (c : nat) (code : Z)
| EsMessage (c : nat) (frame : option EventData)
| EsError (c : nat)
| StoredSession (u : AuthUser) (storedToken : jsstring)
| SetShowAuthModal (v : bool)
| ToggleTerminal
| SelectTab (v : jsstring).

(** An event of transport [c] runs the handler installed on that object; an
    event addressed to no object, or to one of the other kind, has no
    handler to run. *)
Definition step (s : State) (a : Action) : State :=
  match a with
  | TypeIdea v => setIdea v s
  | TypeDescription v => setDescription v s
  | SignedIn u t => signedIn u t s
  | Logout => logout s
  | HistoryItemOpened i d r => historyItemOpened i d r s
  | StartResearch ctorOk => startResearch ctorOk s
  | Reset => reset s
  | WsOpen c =>
      match conns s !! c with
      | Some (WebSocket req _ _ _) => ws_onopen c req s
      | _ => s
      end
  | WsMessage c frame =>
      match conns s !! c with
      | Some (WebSocket _ _ _ _) => ws_onmessage c frame s
      | _ => s
      end
  | WsError c =>
      match conns s !! c with
      | Some (WebSocket req _ _ _) => ws_onerror c req s
      | _ => s
      end
  | WsClose c code =>
      match conns s !! c with
      | Some (WebSocket req wsCompleted _ _) => ws_onclose req wsCompleted code s
      | _ => s
      end
  | EsMessage c frame =>
      match conns s !! c with
      | Some (EventSource _ _) => es_onmessage frame s
      | _ => s
      end
  | EsError c =>
      match conns s !! c with
      | Some (EventSource _ _) => es_onerror c s
      | _ => s
      end
  | StoredSession u storedToken => storedSession u storedToken s
  | SetShowAuthModal v => setShowAuthModal v s
  | ToggleTerminal => setTermCollapsed (negb (termCollapsed s)) s
  | SelectTab v => setActiveTab v s
  end.

Definition run (s : State) (tr : list Action) : State := foldl step s tr.

(** ** Derived views *)

(** The component keeps no status cell.  The four statuses are read off
    [done], [running] and [error] in the order [currentStep] tests them. *)
Inductive Status := Idle | Running | Done | Error.

Definition status (s : State) : Status :=
  if done s then Done
  else if running s then Running
  else if bool_decide (error s = []) then Idle
  else Error.

(** The stage markers of [currentStep], in the order they are tested. *)
Definition stageOfMessage (msg : jsstring) : Z :=
  if includes msg (js "Plan") then 0
  else if includes msg (js "1 / 6") || includes msg (js "Trends") then 1
  else if includes msg (js "2 / 6") || includes msg (js "Demand") then 2
  else if includes msg (js "3 / 6") || includes msg (js "Adopter") then 3
  else if includes msg (js "4 / 6") || includes msg (js "Funder") then 4
  else if includes msg (js "5 / 6") || includes msg (js "Community") then 5
  else if includes msg (js "6 / 6") || includes msg (js "Web") then 6
  else if includes msg (js "SYNTHESIS") then 7
  else 0.

Definition isStepLine (l : LogLine) : bool :=
  bool_decide (type l = js "step") || bool_decide (type l = js "step_done").

(** The [useMemo] body computing [currentStep]. *)
Definition currentStep (done running : bool) (lines : list LogLine) : Z :=
  if done then 8
  else if negb running then -1
  else if bool_decide (length lines = 0) then 0
  else
    match find isStepLine (reverse lines) with
    | None => 0
    | Some last => stageOfMessage (or_else (msg last) [])
    end.

(** What the terminal renders: [lines.map(l => l.type === "ping" ? null : ...)]. *)
Definition renderedLines (ls : list LogLine) : list LogLine :=
  filter (fun l => type l ≠ js "ping") ls.

(** ** Vocabulary of the statements *)

(** [needle] occurs in [s] as a contiguous piece. *)
Definition contains (s needle : jsstring) : Prop :=
  exists before after, s = before ++ needle ++ after.

(** The marker strings [currentStep] looks for. *)
Definition stageMarkers : list jsstring :=
  [js "Plan"; js "1 / 6"; js "Trends"; js "2 / 6"; js "Demand"; js "3 / 6";
   js "Adopter"; js "4 / 6"; js "Funder"; js "5 / 6"; js "Community";
   js "6 / 6"; js "Web"; js "SYNTHESIS"].

(** States the component can be in: the initial render followed by any
    sequence of callbacks. *)
Definition reachable (s : State) : Prop := exists tr, s = run init tr.

(** The component has called [close] on this transport object. *)
Definition closedByComponent (x : Conn) : bool :=
  match x with
  | WebSocket _ _ _ calls => bool_decide (calls <> [])
  | EventSource _ closed => closed
  end.

Definition isEventSource (x : Conn) : bool :=
  match x with
  | EventSource _ _ => true
  | WebSocket _ _ _ _ => false
  end.

(** The control kinds never written to the log by [handleEvent]. *)
Definition isLogKind (l : LogLine) : Prop :=
  type l <> js "ping" /\ type l <> js "complete".

(** How one callback may change the log and its counter. *)
Inductive LogEffect (s s' : State) : Prop :=
| LogKept : lines s' = lines s -> idRef s' = idRef s -> LogEffect s s'
| LogCleared : lines s' = [] -> idRef s' = idRef s -> LogEffect s s'
| LogAppended (raw : EventData) :
    lines s' = lines s ++ [{| id := S (idRef s); type := data_type raw;
                              ts := data_ts raw; msg := data_msg raw |}] ->
    idRef s' = S (idRef s) ->
    data_type raw <> js "ping" -> data_type raw <> js "complete" ->
    LogEffect s s'.

(** The ids of the log are the consecutive counter values ending at
    [idRef]. *)
Definition idsFollowCounter (s : State) : Prop :=
  length (lines s) <= idRef s /\
  id <$> lines s = seq (S (idRef s - length (lines s))) (length (lines s)).

(** While a run is in progress nothing has completed and no result is held. *)
Definition runningIsFresh (s : State) : Prop :=
  running s = true -> done s = false /\ result s = None.

(** *** Concrete runs used below *)

Definition alice : AuthUser :=
  {| user_id := js "u1"; user_name := js "Alice"; user_email := js "alice@example.org" |}.

Definition event (kind text : string) : EventData :=
  {| data_type := js kind; data_ts := None; data_msg := Some (js text);
     data_result := None |}.

Definition completeEvent : EventData :=
  {| data_type := js "complete"; data_ts := None; data_msg := None;
     data_result := Some {| json := js "{}" |} |}.

(** A signed-in user has typed an idea and pressed the button; the socket
    object was constructed. *)
Definition started : State :=
  run init [SignedIn alice (js "tok123"); TypeIdea (js "AI code review tool");
            StartResearch true].

Definition theRequest : Request :=
  {| req_idea := js "AI code review tool"; req_description := [];
     req_token := js "tok123" |}.

(** The socket fails to connect: the browser fires [error] and then [close]
    with code 1006 on it. *)
Definition afterFailedConnect : State :=
  run started [WsError 0; WsClose 0 1006].

(** A log with two stage announcements and detail lines in between. *)
Definition demoLog : list LogLine :=
  [ {| id := 1; type := js "step"; ts := None; msg := Some (js "Plan Queries") |};
    {| id := 2; type := js "info"; ts := None; msg := Some (js "3 queries planned") |};
    {| id := 3; type := js "step"; ts := None; msg := Some (js "1 / 6 Trends") |};
    {| id := 4; type := js "tool_call"; ts := None; msg := Some (js "fetch") |} ].

(** A stage announcement whose text carries two markers. *)
Definition twoMarkerLine : LogLine :=
  {| id := 1; type := js "step"; ts := None; msg := Some (js "Plan: 1 / 6 Trends") |}.

(** A first run logs one line and is reset; a second run logs one line. *)
Definition secondSession : State :=
  run started [WsOpen 0; WsMessage 0 (Some (event "step" "Plan Queries")); Reset;
               TypeIdea (js "Pet sitting marketplace"); StartResearch true;
               WsOpen 1; WsMessage 1 (Some (event "step" "Plan Queries"))].

(** A signed-in user whose idea field holds blanks only. *)
Definition blankIdea : State :=
  run init [SignedIn alice (js "tok123"); TypeIdea (js "   ")].

(** Nobody is signed in; an idea has been typed. *)
Definition anonymous : State :=
  run init [TypeIdea (js "AI code review tool")].

(** The run is reset after the failed connect. *)
Definition afterReset : State := run afterFailedConnect [Reset].

(** The run completes over the transport [connRef] holds after the failed
    connect. *)
Definition afterComplete : State :=
  run afterFailedConnect [EsMessage 2 (Some completeEvent)].

(** An [error] event whose [msg] is the empty string. *)
Definition emptyErrorEvent : EventData :=
  {| data_type := js "error"; data_ts := None; data_msg := Some [];
     data_result := None |}.

(** The run of the walk-through: two stage announcements over the socket,
    an abnormal close, completion over the event source. *)
Definition walkThrough : list Action :=
  [SignedIn alice (js "tok123"); TypeIdea (js "AI code review tool");
   StartResearch true; WsOpen 0;
   WsMessage 0 (Some (event "step" "Plan Queries"));
   WsMessage 0 (Some (event "step" "1 / 6 Trends"));
   WsClose 0 1006;
   EsMessage 1 (Some completeEvent)].

(** The stage shown after the first [n] callbacks of the walk-through. *)
Definition stageAfter (n : nat) : Z :=
  currentStep (done (run init (take n walkThrough)))
              (running (run init (take n walkThrough)))
              (lines (run init (take n walkThrough))).

(** ** Vocabulary of the further properties *)

(** [s] does not begin with a white-space code unit. *)
Definition headNotSpace (s : jsstring) : Prop :=
  match s with
  | [] => True
  | c :: _ => isWhiteSpace c = false
  end.

(** [s] has no white space at either end. *)
Definition trimmed (s : jsstring) : Prop :=
  headNotSpace s /\ headNotSpace (reverse s).

Definition requestOf (x : Conn) : Request :=
  match x with
  | WebSocket req _ _ _ => req
  | EventSource req _ => req
  end.

(** The frames [ws.send] has put on a socket. *)
Definition framesSent (x : Conn) : list Request :=
  match x with
  | WebSocket _ _ sent _ => sent
  | EventSource _ _ => []
  end.

(** A request the worker accepts: the idea is not empty, and idea and
    description carry no outer white space. *)
Definition wellFormedRequest (r : Request) : Prop :=
  req_idea r <> [] /\ trimmed (req_idea r) /\ trimmed (req_description r).

Definition transportOk (x : Conn) : Prop :=
  wellFormedRequest (requestOf x) /\ Forall (eq (requestOf x)) (framesSent x).

(** [connRef] holds the transport object constructed last. *)
Definition connRefLatest (s : State) : Prop :=
  match connRef s with
  | None => conns s = []
  | Some c => S c = length (conns s)
  end.

(** What a callback may do to a transport object that exists already. *)
Definition keepsTransport (x x' : Conn) : Prop :=
  requestOf x' = requestOf x /\
  isEventSource x' = isEventSource x /\
  (closedByComponent x = true -> closedByComponent x' = true) /\
  framesSent x `prefix_of` framesSent x'.

Definition transportsPersist (l l' : list Conn) : Prop :=
  forall c x, l !! c = Some x -> exists x', l' !! c = Some x' /\ keepsTransport x x'.

(** The two facts about the transport objects that every callback keeps. *)
Definition transportsInv (s : State) : Prop :=
  connRefLatest s /\ Forall transportOk (conns s).

(** How the session cells go together. *)
Definition flagsConsistent (s : State) : Prop :=
  (running s = true -> done s = false /\ result s = None /\ error s = []) /\
  (result s <> None -> done s = true).

(** ** The progress strip

    [PIPELINE_STEPS] and the component [PipelineProgress], reduced to what
    it decides: the text of the counter and, for each node, how it is
    drawn. *)

Record PipelineStep := {
  step_id : jsstring;
  step_label : jsstring;
  step_icon : jsstring;
  step_no : Z
}.

Definition PIPELINE_STEPS : list PipelineStep := [
  {| step_id := js "plan";      step_label := js "Plan";
     step_icon := [0xD83E; 0xDDE0]%N; step_no := 0 |};
  {| step_id := js "trends";    step_label := js "Trends";
     step_icon := [0xD83D; 0xDCE1]%N; step_no := 1 |};
  {| step_id := js "demand";    step_label := js "Demand";
     step_icon := [0xD83D; 0xDCCA]%N; step_no := 2 |};
  {| step_id := js "adopters";  step_label := js "Adopters";
     step_icon := [0xD83C; 0xDFAF]%N; step_no := 3 |};
  {| step_id := js "funders";   step_label := js "Funders";
     step_icon := [0xD83D; 0xDCB0]%N; step_no := 4 |};
  {| step_id := js "community"; step_label := js "Community";
     step_icon := [0xD83D; 0xDCAC]%N; step_no := 5 |};
  {| step_id := js "web";       step_label := js "Web Intel";
     step_icon := [0xD83C; 0xDF10]%N; step_no := 6 |};
  {| step_id := js "synthesis"; step_label := js "Synthesis";
     step_icon := [0xD83D; 0xDFE3]%N; step_no := 7 |} ].

(** [String(n)] for an integer [n]. *)
Definition numberToString (n : Z) : jsstring :=
  (if (n <? 0)%Z then js "-" else [])
  ++ js (NilZero.string_of_uint (N.to_uint (Z.abs_N n))).

(** How a node is drawn: a check mark, the spinning arrow, or its icon. *)
Inductive NodeLook := LookDone | LookActive | LookIdle.

Definition isActive (currentStep : Z) (done : bool) (i : nat) : bool :=
  (currentStep =? Z.of_nat i)%Z && negb done.

Definition isDone (currentStep : Z) (done : bool) (i : nat) : bool :=
  done || (Z.of_nat i <? currentStep)%Z.

Definition nodeLook (currentStep : Z) (done : bool) (i : nat) : NodeLook :=
  if isDone currentStep done i then LookDone
  else if isActive currentStep done i then LookActive
  else LookIdle.

Definition nodeGlyph (currentStep : Z) (done : bool) (i : nat) (s : PipelineStep)
    : jsstring :=
  if isDone currentStep done i then [0x2713%N]
  else if isActive currentStep done i then [0x27F3%N]
  else step_icon s.

Definition progressLabel (currentStep : Z) (done : bool) : jsstring :=
  if done then js "8/8 complete"
  else numberToString (Z.max currentStep 0) ++ js "/8 nodes".

Record ProgressView := {
  pv_label : jsstring;
  pv_nodes : list (jsstring * NodeLook * jsstring)   (* label, look, glyph *)
}.

Definition PipelineProgress (currentStep : Z) (done : bool) : ProgressView := {|
  pv_label := progressLabel currentStep done;
  pv_nodes := imap (fun i s => (step_label s, nodeLook currentStep done i,
                                nodeGlyph currentStep done i s))
                   PIPELINE_STEPS
|}.

(** [<PipelineProgress currentStep={currentStep} done={done} />], rendered
    when [running || done]. *)
Definition pipelinePanel (s : State) : option ProgressView :=
  if running s || done s
  then Some (PipelineProgress (currentStep (done s) (running s) (lines s)) (done s))
  else None.

Definition looks (v : ProgressView) : list NodeLook := (fun n => n.1.2) <$> pv_nodes v.

#[global] Instance NodeLook_eq_dec : EqDecision NodeLook.
Proof. solve_decision. Defined.

(** The number of nodes drawn with a check mark. *)
Definition checkedNodes (v : ProgressView) : nat :=
  length (filter (fun l => l = LookDone) (looks v)).

(** ** Line colours

    [lineStyle] reads a property of an object literal.  A name the literal
    does not define is looked up on [Object.prototype]; for the names that
    exist there the result is that inherited value (a function or an
    object, never [undefined]), so [??] does not supply the default. *)

Definition lineStyleTable : list (jsstring * jsstring) := [
  (js "init",        js "text-white/40");
  (js "step",        js "text-cyan-400 font-bold");
  (js "llm_call",    js "text-purple-400");
  (js "tool_call",   js "text-yellow-300");
  (js "tool_result", js "text-emerald-400");
  (js "step_done",   js "text-green-300 font-semibold");
  (js "info",        js "text-sky-300");
  (js "query_line",  js "text-indigo-300/80");
  (js "queries",     js "text-emerald-400");
  (js "divider",     js "text-white/12");
  (js "verdict",     js "text-white font-bold");
  (js "warn",        js "text-amber-400");
  (js "error",       js "text-red-400");
  (js "ping",        js "hidden") ].

Definition objectPrototypeNames : list jsstring := [
  js "constructor"; js "hasOwnProperty"; js "isPrototypeOf";
  js "propertyIsEnumerable"; js "toLocaleString"; js "toString"; js "valueOf";
  js "__proto__"; js "__defineGetter__"; js "__defineSetter__";
  js "__lookupGetter__"; js "__lookupSetter__" ].

Inductive Property :=
| OwnString (v : jsstring)        (* a class string of the literal *)
| Inherited (name : jsstring).    (* the value [Object.prototype] has under [name] *)

Fixpoint ownProperty (table : list (jsstring * jsstring)) (name : jsstring)
    : option jsstring :=
  match table with
  | [] => None
  | (k, v) :: rest => if decide (k = name) then Some v else ownProperty rest name
  end.

Definition lineStyle (type : jsstring) : Property :=
  match ownProperty lineStyleTable type with
  | Some v => OwnString v
  | None =>
      if bool_decide (type ∈ objectPrototypeNames) then Inherited type
      else OwnString (js "text-white/40")
  end.

(** ** Addresses

    [apiBase] and [wsBase]; the two arguments are the values of
    [process.env.NEXT_PUBLIC_API_BASE_URL] and [process.env.NEXT_PUBLIC_WS_URL]. *)

(** [s.replace(/^p/, r)] for a literal [p] and a replacement without [$]. *)
Definition replacePrefix (p r s : jsstring) : jsstring :=
  if startsWith s p then r ++ drop (length p) s else s.

Definition apiBase (envApi : option jsstring) : jsstring :=
  or_else envApi (js "http://localhost:3001").

Definition wsBase (envApi envWs : option jsstring) : jsstring :=
  or_else envWs
    (replacePrefix (js "http://") (js "ws://")
       (replacePrefix (js "https://") (js "wss://") (apiBase envApi))).

(** ** What the page shows

    The conditions under which [ValidatePage] renders its blocks. *)

(** [{(running || done) && ...}]: status chip, reset link, progress strip,
    terminal. *)
Definition showRunPanels (s : State) : bool := running s || done s.

(** [{!running && !done && ( ... {user && ( the idea form )} )}] *)
Definition showIdeaForm (s : State) : bool :=
  negb (running s) && negb (done s) && bool_decide (user s <> None).

(** [{error && <p>{error}</p>}], inside the idea form. *)
Definition errorBanner (s : State) : option jsstring :=
  if showIdeaForm s && negb (bool_decide (error s = [])) then Some (error s)
  else None.

(** The lines in the terminal body: the block needs [!termCollapsed]. *)
Definition terminalLines (s : State) : list LogLine :=
  if showRunPanels s && negb (termCollapsed s) then renderedLines (lines s)
  else [].

(** ** Account and history

    The cells and callbacks of the page that deal with signing in and with
    the list of earlier searches.  An [async] function is cut at each
    [await]: the first part returns the request it issues, if any, and the
    continuation takes the outcome of that request.  [localStorage] holds
    the text [JSON.stringify] makes of the user; it is kept here as the
    user it encodes.  Writing to [localStorage] is taken to succeed.

    The setters called in one stretch of a callback, up to its next
    [await], are applied together in the render that follows (the file is
    a client component of the app router, that is React 18 or later), and
    the effects whose dependencies changed in that render run after it. *)

Inductive AuthMode := ModeLogin | ModeSignup.

(** [authMode === "signup"] *)
Definition isSignup (m : AuthMode) : bool :=
  match m with
  | ModeSignup => true
  | ModeLogin => false
  end.

Record HistoryItem := {
  hist_id : jsstring;
  hist_idea : jsstring;
  hist_description : jsstring;
  hist_createdAt : jsstring;
  hist_score : option jsstring;     (* the number as received, or null *)
  hist_headline : jsstring;
  hist_recommendation : jsstring
}.

Record AuthForm := {
  authMode : AuthMode;
  authName : jsstring;
  authEmail : jsstring;
  authPassword : jsstring;
  authLoading : bool;
  authError : jsstring
}.

Record HistoryPane := {
  historyLoading : bool;
  historyError : jsstring;
  history : list HistoryItem
}.

Record LocalStorage := {
  sv_token : option jsstring;
  sv_user : option AuthUser
}.

Record Page := {
  session : State;
  form : AuthForm;
  pane : HistoryPane;
  storage : LocalStorage
}.

Definition withSession (f : State -> State) (p : Page) : Page :=
  {| session := f (session p); form := form p; pane := pane p; storage := storage p |}.

Definition withForm (f : AuthForm -> AuthForm) (p : Page) : Page :=
  {| session := session p; form := f (form p); pane := pane p; storage := storage p |}.

Definition withPane (f : HistoryPane -> HistoryPane) (p : Page) : Page :=
  {| session := session p; form := form p; pane := f (pane p); storage := storage p |}.

Definition withStorage (f : LocalStorage -> LocalStorage) (p : Page) : Page :=
  {| session := session p; form := form p; pane := pane p; storage := f (storage p) |}.

Definition setAuthPassword (v : jsstring) (f : AuthForm) : AuthForm :=
  {| authMode := authMode f; authName := authName f; authEmail := authEmail f;
     authPassword := v; authLoading := authLoading f; authError := authError f |}.

Definition setAuthEmail (v : jsstring) (f : AuthForm) : AuthForm :=
  {| authMode := authMode f; authName := authName f; authEmail := v;
     authPassword := authPassword f; authLoading := authLoading f; authError := authError f |}.

Definition setAuthLoading (v : bool) (f : AuthForm) : AuthForm :=
  {| authMode := authMode f; authName := authName f; authEmail := authEmail f;
     authPassword := authPassword f; authLoading := v; authError := authError f |}.

Definition setAuthError (v : jsstring) (f : AuthForm) : AuthForm :=
  {| authMode := authMode f; authName := authName f; authEmail := authEmail f;
     authPassword := authPassword f; authLoading := authLoading f; authError := v |}.

Definition setHistoryLoading (v : bool) (h : HistoryPane) : HistoryPane :=
  {| historyLoading := v; historyError := historyError h; history := history h |}.

Definition setHistoryError (v : jsstring) (h : HistoryPane) : HistoryPane :=
  {| historyLoading := historyLoading h; historyError := v; history := history h |}.

Definition setHistory (v : list HistoryItem) (h : HistoryPane) : HistoryPane :=
  {| historyLoading := historyLoading h; historyError := historyError h; history := v |}.

(** How a request ends, as the [try] block sees it. *)
Inductive Outcome (A : Type) :=
| Threw (message : jsstring)        (* [fetch] or [res.json()] rejected with an Error *)
| ThrewOther                        (* rejected with something that is no Error *)
| Refused (error : option jsstring) (* [!res.ok], with [data.error] *)
| Accepted (data : A).              (* [res.ok] *)
Arguments Threw {A} message.
Arguments ThrewOther {A}.
Arguments Refused {A} error.
Arguments Accepted {A} data.

(** The text the [catch] block stores, [None] when nothing was thrown:
    [throw new Error(data.error || fallback)] and
    [err instanceof Error ? err.message : fallback]. *)
Definition caughtMessage {A} (o : Outcome A) (fallback : jsstring) : option jsstring :=
  match o with
  | Threw m => Some m
  | ThrewOther => Some fallback
  | Refused e => Some (or_else e fallback)
  | Accepted _ => None
  end.

(** [fetchHistory(bearer)] up to its [fetch]: the bearer of the request it
    issues. *)
Definition fetchHistory (bearer : jsstring) (p : Page) : Page * option jsstring :=
  if bool_decide (bearer = []) then (p, None)
  else (p |> withPane (setHistoryLoading true) |> withPane (setHistoryError []),
        Some bearer).

(** The rest of [fetchHistory]; [data.items] may be absent. *)
Definition fetchHistory_settled (o : Outcome (option (list HistoryItem))) (p : Page) : Page :=
  match o with
  | Accepted items => p |> withPane (setHistory (default [] items))
  | _ => p |> withPane (setHistoryError
                          (default [] (caughtMessage o (js "Failed to load history"))))
  end |> withPane (setHistoryLoading false).

Record AuthRequest := {
  auth_endpoint : jsstring;
  auth_name : jsstring;
  auth_email : jsstring;
  auth_password : jsstring
}.

(** [submitAuth()] up to its [fetch]. *)
Definition submitAuth (p : Page) : Page * option AuthRequest :=
  let f := form p in
  if bool_decide (trim (authEmail f) = []) || bool_decide (trim (authPassword f) = [])
  then (p, None)
  else if isSignup (authMode f) && (length (trim (authName f)) <? 2)
  then (p |> withForm (setAuthError (js "Name must be at least 2 characters")), None)
  else
    (p |> withForm (setAuthLoading true) |> withForm (setAuthError []),
     Some {| auth_endpoint := if isSignup (authMode f) then js "/api/auth/signup"
                              else js "/api/auth/login";
             auth_name := trim (authName f);
             auth_email := trim (authEmail f);
             auth_password := authPassword f |}).

(** The effect of lines 581-595, [useEffect(..., [fetchHistory])]: it takes
    the session from [localStorage], puts the stored address into the form
    and asks for the history.  The store holds the user that was written
    to it, so the [JSON.parse] of the [try] block succeeds. *)
Definition restoreEffect (p : Page) : Page * option jsstring :=
  match sv_token (storage p), sv_user (storage p) with
  | Some storedToken, Some parsed =>
      if bool_decide (storedToken = []) then (p, None)
      else fetchHistory storedToken
             (p |> withSession (setToken storedToken)
                |> withSession (setUser (Some parsed))
                |> withForm (setAuthEmail (user_email parsed)))
  | _, _ => (p, None)
  end.

(** The effect of lines 682-684, [useEffect(..., [done, token, fetchHistory])].
    It reads [done] and [token] as they were rendered. *)
Definition doneEffect (rendered : Page) (p : Page) : Page * option jsstring :=
  if done (session rendered) && negb (bool_decide (token (session rendered) = []))
  then fetchHistory (token (session rendered)) p
  else (p, None).

(** [fetchHistory] is a [useCallback] over [[token, apiBase]]: a render in
    which [token] differs from the one before makes a new [fetchHistory],
    and the two effects that depend on it run again after that render, in
    the order of their declaration.  The page after them and the bearers of
    the history requests they issue. *)
Definition tokenEffects (rendered : Page) : Page * list jsstring :=
  let restored := restoreEffect rendered in
  let asked := doneEffect rendered restored.1 in
  (asked.1, option_list restored.2 ++ option_list asked.2).

(** The [try] block of [submitAuth] after a response that is ok, up to the
    [await] of [fetchHistory(data.token)]: the bearer of the request it
    waits for, if one was issued. *)
Definition submitAuth_accepted (t : jsstring) (u : AuthUser) (p : Page)
    : Page * option jsstring :=
  fetchHistory t
    (p |> withSession (setToken t) |> withSession (setUser (Some u))
       |> withStorage (fun _ => {| sv_token := Some t; sv_user := Some u |})
       |> withForm (setAuthPassword [])
       |> withSession (setShowAuthModal false)).

(** The continuation of [submitAuth] once the request has ended.  On success
    the page is rendered with the token received while [submitAuth] waits
    for its history request; when that token is a new one the effects above
    run again.  The second component is the bearer of the request
    [submitAuth] waits for, if one was issued; without one its [finally]
    block runs at once. *)
Definition submitAuth_settled (o : Outcome (jsstring * AuthUser)) (p : Page)
    : Page * option jsstring :=
  match o with
  | Accepted (t, u) =>
      let accepted := submitAuth_accepted t u p in
      let p2 := if bool_decide (t = token (session p)) then accepted.1
                else (tokenEffects accepted.1).1 in
      match accepted.2 with
      | Some bearer => (p2, Some bearer)
      | None => (p2 |> withForm (setAuthLoading false), None)
      end
  | _ =>
      (p |> withForm (setAuthError
                        (default [] (caughtMessage o (js "Authentication failed"))))
         |> withForm (setAuthLoading false), None)
  end.

(** The history requests issued by the effects that run again after a
    sign-in, beside the one [submitAuth] waits for. *)
Definition submitAuth_effectRequests (o : Outcome (jsstring * AuthUser)) (p : Page)
    : list jsstring :=
  match o with
  | Accepted (t, u) =>
      if bool_decide (t = token (session p)) then []
      else (tokenEffects (submitAuth_accepted t u p).1).2
  | _ => []
  end.

(** The end of [submitAuth] after the history request it waited for. *)
Definition submitAuth_finished (o : Outcome (option (list HistoryItem))) (p : Page) : Page :=
  fetchHistory_settled o p |> withForm (setAuthLoading false).

(** History requests that end one after the other. *)
Definition settleAll (os : list (Outcome (option (list HistoryItem)))) (p : Page) : Page :=
  foldl (fun q o => fetchHistory_settled o q) p os.

(** [logout()], on the whole page. *)
Definition logoutPage (p : Page) : Page :=
  p |> withSession (setUser None) |> withSession (setToken [])
    |> withPane (setHistory []) |> withForm (setAuthPassword [])
    |> withStorage (fun _ => {| sv_token := None; sv_user := None |}).

(** [openHistoryItem(itemId)] up to its [fetch]: the item asked for and the
    bearer. *)
Definition openHistoryItem (itemId : jsstring) (p : Page)
    : Page * option (jsstring * jsstring) :=
  if bool_decide (token (session p) = []) then (p, None)
  else (p |> withPane (setHistoryError []), Some (itemId, token (session p))).

(** Its continuation; the data are [item.idea], [item.description] and
    [item.result].  When no finished session was shown before, [done]
    changes in the render that follows, and the effect of lines 682-684
    asks for the history. *)
Definition openHistoryItem_settled
    (o : Outcome (option jsstring * option jsstring * option ResearchResult))
    (p : Page) : Page :=
  match o with
  | Accepted (i, d, r) =>
      let opened := p |> withSession (historyItemOpened i d r) in
      if done (session p) then opened else (doneEffect opened opened).1
  | _ => p |> withPane (setHistoryError
                          (default [] (caughtMessage o (js "Failed to open history"))))
  end.

(** *** A page used in the examples of the account callbacks *)

Definition blankForm : AuthForm :=
  {| authMode := ModeLogin; authName := []; authEmail := [];
     authPassword := []; authLoading := false; authError := [] |}.

Definition freshPage : Page :=
  {| session := init; form := blankForm;
     pane := {| historyLoading := false; historyError := []; history := [] |};
     storage := {| sv_token := None; sv_user := None |} |}.

(** The sign-up form filled in, with blanks around name and address. *)
Definition signupPage : Page :=
  freshPage |> withForm (fun _ =>
    {| authMode := ModeSignup; authName := js " Alice "; 
       authEmail := js " alice@example.org "; authPassword := js " s3cret ";
       authLoading := false; authError := js "old message" |}).

(** The form is complete: nothing blank, and a name of two units or more
    when signing up. *)
Definition formComplete (f : AuthForm) : Prop :=
  trim (authEmail f) <> [] /\ trim (authPassword f) <> [] /\
  (isSignup (authMode f) = true -> 2 <= length (trim (authName f))).

(** An outcome other than [res.ok]. *)
Definition isFailure {A} (o : Outcome A) : Prop :=
  match o with
  | Accepted _ => False
  | _ => True
  end.

(** The signed-in page while a run is in progress. *)
Definition runningPage : Page :=
  freshPage |> withSession (fun _ => started)
            |> withStorage (fun _ => {| sv_token := Some (js "tok123");
                                        sv_user := Some alice |}).

(** ** The research report block

    [{summary && ( <p>{summary.slice(0, 3000)}</p>
                   {summary.length > 3000 && <p>[{summary.length} total chars]</p>} )}]:
    the text shown and the note under it. *)
Definition summaryBlock (summary : jsstring) : option (jsstring * option jsstring) :=
  match summary with
  | [] => None
  | _ :: _ =>
      Some (take 3000 summary,
            if 3000 <? length summary
            then Some (js "[" ++ numberToString (Z.of_nat (length summary))
                         ++ js " total chars]")
            else None)
  end.

(** A callback that empties the log. *)
Definition clearsLog (a : Action) : Prop :=
  a = Reset \/ exists ctorOk, a = StartResearch ctorOk.

(** A signed-in user starts a run and logs out while it is in progress. *)
Definition loggedOutDuringRun : State := run started [Logout].

(** A run that has logged its first line, and what arrives next: a line, a
    malformed frame, an abnormal close, a line over the event source. *)
Definition planLogged : State :=
  run started [WsMessage 0 (Some (event "step" "Plan Queries"))].

Definition laterEvents : list Action :=
  [WsMessage 0 (Some (event "info" "3 queries planned")); WsMessage 0 None;
   WsClose 0 1006; EsMessage 1 (Some (event "step" "1 / 6 Trends"))].

(** The status codes of the close calls the component has made on a
    transport.  [EventSource.close()] takes none. *)
Definition closeCodes (x : Conn) : list Z :=
  match x with
  | WebSocket _ _ _ calls =>
      omap (fun call => match call with
                        | CloseWith code _ => Some code
                        | ClosePlain => None
                        end) calls
  | EventSource _ _ => []
  end.

(** The server closed the socket with code 1011 (a close frame: no error
    event is fired).  The fallback was started once, its event source is
    the only open transport, and [connRef] holds it. *)
Definition onFallback : State := run started [WsClose 0 1011].

(** A user who logged out of a finished session signs in again. *)
Definition finishedPage : Page := signupPage |> withSession (setDone true).

(** * Properties *)

(** ** Strings *)

Lemma startsWith_spec (p s : jsstring) :
  startsWith s p = true <-> exists rest, s = p ++ rest.
Proof.
  revert s. induction p as [|a p IH]; intros s; simpl.
  - split; [intros _; by exists s | done].
  - destruct s as [|b s].
    + split; [done | intros [rest Hrest]; discriminate Hrest].
    + rewrite andb_true_iff, N.eqb_eq, IH. split.
      * intros [-> [rest ->]]. by exists rest.
      * intros [rest Hrest]. injection Hrest as -> ->. eauto.
Qed.

Lemma includes_spec (s needle : jsstring) :
  includes s needle = true <-> contains s needle.
Proof.
  unfold contains. induction s as [|c s IH]; simpl.
  - rewrite orb_false_r, startsWith_spec. split.
    + intros [rest Hrest]. exists [], rest. done.
    + intros (before & after & Heq). symmetry in Heq.
      apply app_eq_nil in Heq as [-> Heq]. apply app_eq_nil in Heq as [-> ->].
      by exists [].
  - rewrite orb_true_iff, startsWith_spec, IH. split.
    + intros [[rest Hrest] | (before & after & ->)].
      * exists [], rest. done.
      * exists (c :: before), after. done.
    + intros (before & after & Heq). destruct before as [|b before].
      * left. by exists after.
      * right. injection Heq as -> ->. eauto.
Qed.

Lemma includes_false (s needle : jsstring) :
  includes s needle = false <-> ~ contains s needle.
Proof. rewrite <- includes_spec. by destruct (includes s needle). Qed.

Lemma contains_prefix (s n1 n2 : jsstring) :
  contains s (n1 ++ n2) -> contains s n1.
Proof.
  intros (before & after & ->). exists before, (n2 ++ after).
  by rewrite <- (assoc_L (++)).
Qed.

(** ** The stage inference *)

Lemma stageOfMessage_range (m : jsstring) : (0 <= stageOfMessage m <= 7)%Z.
Proof. unfold stageOfMessage. repeat case_match; lia. Qed.

Lemma stageOfMessage_plan (m : jsstring) :
  contains m (js "Plan") -> stageOfMessage m = 0%Z.
Proof.
  intros H%includes_spec. unfold stageOfMessage. by rewrite H.
Qed.

Lemma stageOfMessage_first_trends (m : jsstring) :
  ~ contains m (js "Plan") ->
  contains m (js "1 / 6") \/ contains m (js "Trends") ->
  stageOfMessage m = 1%Z.
Proof.
  intros Hplan%includes_false Hm. rewrite <- !includes_spec, <- orb_true_iff in Hm.
  unfold stageOfMessage. by rewrite Hplan, Hm.
Qed.

Lemma stageOfMessage_no_marker (m : jsstring) :
  Forall (fun marker => ~ contains m marker) stageMarkers ->
  stageOfMessage m = 0%Z.
Proof.
  unfold stageMarkers. intros H.
  repeat (apply Forall_cons_1 in H as [Hm%includes_false H]; revert Hm).
  intros. unfold stageOfMessage.
  repeat match goal with Hm : includes m _ = false |- _ => rewrite Hm; clear Hm end.
  done.
Qed.

(** The backward scan [[...lines].reverse().find(...)] stops at the latest
    line that satisfies the test. *)
Lemma find_reverse_latest {A} (P : A -> bool) (pre post : list A) (x : A) :
  P x = true -> Forall (fun y => P y = false) post ->
  find P (reverse (pre ++ x :: post)) = Some x.
Proof.
  intros Hx Hpost. rewrite reverse_app, reverse_cons, <- (assoc_L (++)).
  apply Forall_reverse in Hpost.
  induction Hpost as [|y rpost Hy _ IH]; simpl.
  - by rewrite Hx.
  - by rewrite Hy.
Qed.

Lemma find_reverse_none {A} (P : A -> bool) (l : list A) :
  Forall (fun y => P y = false) l -> find P (reverse l) = None.
Proof.
  intros Hl. apply Forall_reverse in Hl.
  induction Hl as [|y rl Hy _ IH]; simpl; [done|]. by rewrite Hy.
Qed.

Lemma isStepLine_spec (l : LogLine) :
  isStepLine l = true <-> type l = js "step" \/ type l = js "step_done".
Proof.
  unfold isStepLine. by rewrite orb_true_iff, !bool_decide_eq_true.
Qed.

Lemma currentStep_range (d r : bool) (ls : list LogLine) :
  (-1 <= currentStep d r ls <= 8)%Z.
Proof.
  unfold currentStep. repeat case_match; try lia.
  pose proof (stageOfMessage_range (or_else (msg l) [])). lia.
Qed.

(** C5, as the code has it: the stage is a function of [done], [running]
    and the log.  It is 8 when done, -1 when neither done nor running, 0
    when running with no [step]/[step_done] line; otherwise the latest such
    line decides, through the first marker found in its text in the order
    Plan, 1 / 6 or Trends, ..., SYNTHESIS (so a text containing Plan Queries
    gives 0, and one containing 1 / 6 Trends gives 1 provided it does not
    also contain Plan), and 0 when no marker occurs.  The value always lies
    in [-1, 8]. *)
Theorem C5_currentStep_stage (d r : bool) (ls : list LogLine) :
  (d = true -> currentStep d r ls = 8%Z) /\
  (d = false -> r = false -> currentStep d r ls = (-1)%Z) /\
  (d = false -> r = true -> Forall (fun l => isStepLine l = false) ls ->
     currentStep d r ls = 0%Z) /\
  (forall pre last post,
     d = false -> r = true -> ls = pre ++ last :: post ->
     isStepLine last = true -> Forall (fun l => isStepLine l = false) post ->
     currentStep d r ls = stageOfMessage (or_else (msg last) []) /\
     (0 <= currentStep d r ls <= 7)%Z) /\
  (forall m, contains m (js "Plan Queries") -> stageOfMessage m = 0%Z) /\
  (forall m, contains m (js "1 / 6 Trends") -> ~ contains m (js "Plan") ->
     stageOfMessage m = 1%Z) /\
  (forall m, Forall (fun marker => ~ contains m marker) stageMarkers ->
     stageOfMessage m = 0%Z) /\
  (-1 <= currentStep d r ls <= 8)%Z.
Proof.
  repeat split.
  - by intros ->.
  - by intros -> ->.
  - intros -> -> Hnone. unfold currentStep; simpl.
    case_bool_decide; [done|]. by rewrite find_reverse_none.
  - subst. unfold currentStep; simpl. case_bool_decide as Hlen.
    + rewrite length_app in Hlen. simpl in Hlen. lia.
    + by rewrite find_reverse_latest.
  - subst. unfold currentStep; simpl. case_bool_decide as Hlen.
    + rewrite length_app in Hlen. simpl in Hlen. lia.
    + rewrite find_reverse_latest by done. apply stageOfMessage_range.
  - subst. unfold currentStep; simpl. case_bool_decide as Hlen.
    + rewrite length_app in Hlen. simpl in Hlen. lia.
    + rewrite find_reverse_latest by done. apply stageOfMessage_range.
  - intros m Hm. apply stageOfMessage_plan.
    by apply (contains_prefix m (js "Plan") (js " Queries")).
  - intros m Hm Hplan. apply stageOfMessage_first_trends; [done|].
    left. by apply (contains_prefix m (js "1 / 6") (js " Trends")).
  - apply stageOfMessage_no_marker.
  - apply currentStep_range.
  - apply currentStep_range.
Qed.

Lemma C5_currentStep_stage_witness :
  currentStep false true demoLog = 1%Z.
Proof.
  destruct (C5_currentStep_stage false true demoLog)
    as (_ & _ & _ & Hlatest & _ & Htrends & _).
  destruct (Hlatest (take 2 demoLog) {| id := 3; type := js "step"; ts := None;
                                        msg := Some (js "1 / 6 Trends") |}
                    (drop 3 demoLog)) as [-> _].
  - reflexivity.
  - reflexivity.
  - reflexivity.
  - reflexivity.
  - repeat constructor.
  - apply Htrends.
    + exists [], []. reflexivity.
    + apply includes_false. reflexivity.
Defined.

(** C5 as worded fails where the text carries an earlier marker as well:
    this line contains 1 / 6 Trends, and the stage is 0. *)
Lemma C5_counterexample :
  contains (or_else (msg twoMarkerLine) []) (js "1 / 6 Trends") /\
  currentStep false true [twoMarkerLine] = 0%Z /\
  currentStep false true [twoMarkerLine] <> 1%Z.
Proof.
  split; [|split].
  - exists (js "Plan: "), []. reflexivity.
  - reflexivity.
  - discriminate.
Qed.

(** ** What one callback does to the log *)

Lemma js_kinds_distinct :
  js "error" <> js "ping" /\ js "error" <> js "complete".
Proof. split; discriminate. Qed.

Lemma lines_closeCurrent (call : CloseCall) (s : State) :
  lines (closeCurrent call s) = lines s /\ idRef (closeCurrent call s) = idRef s.
Proof. unfold closeCurrent. by destruct (connRef s). Qed.

Lemma handleEvent_log_effect (data : EventData) (s : State) :
  LogEffect s (handleEvent data s).
Proof.
  unfold handleEvent. repeat case_decide.
  - by apply LogKept.
  - apply LogKept; by rewrite (proj1 (lines_closeCurrent _ _)) ||
                        rewrite (proj2 (lines_closeCurrent _ _)).
  - by apply LogKept.
  - by apply (LogAppended _ _ data).
Qed.

Lemma fallbackToSSE_log_effect (t i d : jsstring) (s : State) :
  LogEffect s (fallbackToSSE t i d s).
Proof. by apply LogKept. Qed.

Lemma startResearch_log_effect (ctorOk : bool) (s : State) :
  LogEffect s (startResearch ctorOk s).
Proof.
  unfold startResearch. destruct (user s); [|by apply LogKept].
  destruct (_ || _); [by apply LogKept|].
  destruct ctorOk; by apply LogCleared.
Qed.

Lemma reset_log_effect (s : State) : LogEffect s (reset s).
Proof.
  apply LogCleared; [done|]. unfold reset; simpl.
  apply lines_closeCurrent.
Qed.

Lemma ws_onmessage_log_effect (c : nat) (frame : option EventData) (s : State) :
  LogEffect s (ws_onmessage c frame s).
Proof.
  unfold ws_onmessage. destruct frame as [payload|]; [|by apply LogKept].
  case_decide; [|apply handleEvent_log_effect].
  destruct (handleEvent_log_effect payload
              (setConns (alter markCompleted c (conns s)) s))
    as [H1 H2|H1 H2|raw H1 H2 H3 H4];
    [by apply LogKept|by apply LogCleared|by apply (LogAppended _ _ raw)].
Qed.

Lemma es_onmessage_log_effect (frame : option EventData) (s : State) :
  LogEffect s (es_onmessage frame s).
Proof.
  destruct frame as [data|]; [apply handleEvent_log_effect | by apply LogKept].
Qed.

Lemma es_onerror_log_effect (c : nat) (s : State) : LogEffect s (es_onerror c s).
Proof.
  apply (LogAppended _ _ connectionLostLine); try done; apply js_kinds_distinct.
Qed.

Lemma ws_onclose_log_effect (req : Request) (completed : bool) (code : Z) (s : State) :
  LogEffect s (ws_onclose req completed code s).
Proof. unfold ws_onclose. case_match; by apply LogKept. Qed.

Lemma step_log_effect (s : State) (a : Action) : LogEffect s (step s a).
Proof.
  destruct a as [v|v|u t| |i d r|ctorOk| |c|c frame|c|c code|c frame|c|u t|v| |v];
    cbn [step];
    try destruct (conns s !! c) as [[req completed sent calls|req closed]|];
    try (by apply LogKept).
  - apply startResearch_log_effect.
  - apply reset_log_effect.
  - apply ws_onmessage_log_effect.
  - apply ws_onclose_log_effect.
  - apply es_onmessage_log_effect.
  - apply es_onerror_log_effect.
  - unfold storedSession. case_bool_decide; by apply LogKept.
Qed.

(** ** Invariants of the reachable states *)

Lemma idsFollowCounter_step (s s' : State) :
  LogEffect s s' -> idsFollowCounter s -> idsFollowCounter s'.
Proof.
  unfold idsFollowCounter.
  intros [Hl Hi|Hl Hi|raw Hl Hi _ _] [Hlen Hids]; rewrite Hl, Hi.
  - done.
  - simpl. split; [lia|done].
  - rewrite length_app, fmap_app, Hids. simpl. split; [lia|].
    replace (idRef s - (length (lines s) + 1)) with (idRef s - length (lines s) - 1) by lia.
    rewrite seq_app. simpl. do 2 f_equal; lia.
Qed.

Lemma logKinds_step (s s' : State) :
  LogEffect s s' -> Forall isLogKind (lines s) -> Forall isLogKind (lines s').
Proof.
  intros [Hl _|Hl _|raw Hl _ Hping Hcomplete] Hall; rewrite Hl.
  - done.
  - constructor.
  - apply Forall_app. split; [done|]. by repeat constructor.
Qed.

Lemma runningIsFresh_handleEvent (data : EventData) (s : State) :
  runningIsFresh s -> runningIsFresh (handleEvent data s).
Proof.
  unfold runningIsFresh, handleEvent. repeat case_decide; try done.
  unfold closeCurrent; simpl. by destruct (connRef s).
Qed.

Lemma runningIsFresh_step (s : State) (a : Action) :
  runningIsFresh s -> runningIsFresh (step s a).
Proof.
  intros Hs.
  destruct a as [v|v|u t| |i d r|ctorOk| |c|c frame|c|c code|c frame|c|u t|v| |v];
    cbn [step];
    try destruct (conns s !! c) as [[req completed sent calls|req closed]|];
    try done.
  - unfold startResearch. destruct (user s); [|done].
    destruct (_ || _); [done|]. by destruct ctorOk.
  - unfold ws_onmessage. destruct frame as [payload|]; [|done].
    case_decide; by apply runningIsFresh_handleEvent.
  - unfold ws_onclose. by case_match.
  - destruct frame as [data|]; [|done]. by apply runningIsFresh_handleEvent.
  - unfold storedSession. by case_bool_decide.
Qed.

Lemma run_snoc (s : State) (tr : list Action) (a : Action) :
  run s (tr ++ [a]) = step (run s tr) a.
Proof. unfold run. by rewrite foldl_app. Qed.

(** Induction over the runs of the component. *)
Lemma reachable_ind (P : State -> Prop) :
  P init -> (forall s a, reachable s -> P s -> P (step s a)) ->
  forall s, reachable s -> P s.
Proof.
  intros Hinit Hstep s [tr ->].
  induction tr as [|a tr IH] using rev_ind; [done|].
  rewrite run_snoc. apply Hstep; [by exists tr | done].
Qed.

Lemma reachable_idsFollowCounter (s : State) : reachable s -> idsFollowCounter s.
Proof.
  apply reachable_ind.
  - split; [simpl; lia | done].
  - intros s0 a _. apply idsFollowCounter_step, step_log_effect.
Qed.

Lemma reachable_logKinds (s : State) : reachable s -> Forall isLogKind (lines s).
Proof.
  revert s. apply (reachable_ind (fun s => Forall isLogKind (lines s))).
  - constructor.
  - intros s0 a _. apply logKinds_step, step_log_effect.
Qed.

Lemma reachable_runningIsFresh (s : State) : reachable s -> runningIsFresh s.
Proof.
  apply reachable_ind.
  - intros H; discriminate H.
  - intros s0 a _. apply runningIsFresh_step.
Qed.

(** ** The log *)

Lemma seq_strictly_increasing (a n : nat) : StronglySorted lt (seq a n).
Proof.
  revert a. induction n as [|n IH]; intros a; simpl; constructor; [apply IH|].
  apply Forall_forall. intros x Hx%elem_of_seq. lia.
Qed.

(** C9: whatever the callbacks and inbound events, the log never holds a
    line of kind ping or complete; neither does the part of it that is
    rendered. *)
Theorem C9_no_control_kinds_in_log (tr : list Action) :
  Forall (fun l => type l <> js "ping" /\ type l <> js "complete")
         (lines (run init tr)) /\
  Forall (fun l => type l <> js "ping" /\ type l <> js "complete")
         (renderedLines (lines (run init tr))).
Proof.
  assert (Hlog : Forall isLogKind (lines (run init tr)))
    by (apply reachable_logKinds; by exists tr).
  split; [done|].
  apply Forall_forall. intros l [_ Hl]%list_elem_of_filter.
  by apply (proj1 (Forall_forall _ _) Hlog).
Qed.

(** C4, as the code has it: the ids of the log are strictly increasing and
    consecutive; the entry at 1-based position k has id c + k, where c is
    [idRef] minus the length of the log, the value the counter had when the
    log was last empty.  The counter belongs to the component, not to the
    session: [startResearch] and [reset] leave it as it is, so c is 0 only
    until the first line has been logged. *)
Theorem C4_ids_follow_counter (tr : list Action) :
  length (lines (run init tr)) <= idRef (run init tr) /\
  id <$> lines (run init tr)
    = seq (S (idRef (run init tr) - length (lines (run init tr))))
          (length (lines (run init tr))) /\
  StronglySorted lt (id <$> lines (run init tr)) /\
  (forall ctorOk, idRef (startResearch ctorOk (run init tr)) = idRef (run init tr)) /\
  idRef (reset (run init tr)) = idRef (run init tr).
Proof.
  destruct (reachable_idsFollowCounter (run init tr)) as [Hlen Hids];
    [by exists tr|].
  split; [done|]. split; [done|]. split; [|split].
  - rewrite Hids. apply seq_strictly_increasing.
  - intros ctorOk. unfold startResearch.
    destruct (user _); [|done]. destruct (_ || _); [done|]. by destruct ctorOk.
  - unfold reset; simpl. apply lines_closeCurrent.
Qed.

(** C4 as worded fails in the second session: its first line has id 2. *)
Lemma C4_counterexample :
  length (lines secondSession) = 1 /\
  id <$> lines secondSession = [2] /\
  id <$> lines secondSession <> seq 1 (length (lines secondSession)).
Proof. split; [|split]; [reflexivity|reflexivity|discriminate]. Qed.

(** ** Starting *)

Lemma running_handleEvent (data : EventData) (s : State) :
  running (handleEvent data s) = true -> running s = true.
Proof.
  unfold handleEvent. repeat case_decide; try done.
  unfold closeCurrent. by destruct (connRef _).
Qed.

(** Only [startResearch] sets [running]. *)
Lemma running_only_by_start (s : State) (a : Action) :
  (forall ctorOk, a <> StartResearch ctorOk) ->
  running (step s a) = true -> running s = true.
Proof.
  intros Ha.
  destruct a as [v|v|u t| |i d r|ctorOk| |c|c frame|c|c code|c frame|c|u t|v| |v];
    cbn [step];
    try destruct (conns s !! c) as [[req completed sent calls|req closed]|];
    try done.
  - by destruct (Ha ctorOk).
  - unfold ws_onmessage. destruct frame as [payload|]; [|done].
    case_decide; by intros ?%running_handleEvent.
  - unfold ws_onclose. by case_match.
  - destruct frame as [data|]; [|done]. simpl. apply running_handleEvent.
  - unfold storedSession. by case_bool_decide.
Qed.

(** C7: [startResearch] called while a run is in progress, or with an idea
    that is empty once trimmed, changes nothing of the session: status (so
    an idle session stays idle), transports, log, result and error message
    are as before; with a signed-in user the whole state is unchanged. *)
Theorem C7_start_guards_are_noops (ctorOk : bool) (s : State) :
  running s = true \/ trim (idea s) = [] ->
  status (startResearch ctorOk s) = status s /\
  (status s = Idle -> status (startResearch ctorOk s) = Idle) /\
  conns (startResearch ctorOk s) = conns s /\
  connRef (startResearch ctorOk s) = connRef s /\
  wsStatus (startResearch ctorOk s) = wsStatus s /\
  lines (startResearch ctorOk s) = lines s /\
  result (startResearch ctorOk s) = result s /\
  error (startResearch ctorOk s) = error s /\
  (user s <> None -> startResearch ctorOk s = s).
Proof.
  intros Hguard. unfold startResearch. destruct (user s) as [u|].
  - replace (bool_decide (trim (idea s) = []) || running s) with true.
    + repeat split; congruence.
    + symmetry. apply orb_true_iff. rewrite bool_decide_eq_true. tauto.
  - repeat split; done.
Qed.

Lemma C7_start_guards_are_noops_witness :
  startResearch true blankIdea = blankIdea /\
  status (startResearch true blankIdea) = Idle.
Proof.
  destruct (C7_start_guards_are_noops true blankIdea) as (_ & Hidle & _ & _ & _ & _ & _ & _ & Hsame).
  - right. reflexivity.
  - split; [apply Hsame; discriminate | apply Hidle; reflexivity].
Defined.

(** C10: without a signed-in user [startResearch] only asks for the login
    modal: status, transports, log, result and error message are unchanged,
    no run begins, and no other callback starts one either. *)
Theorem C10_start_needs_user (ctorOk : bool) (s : State) :
  user s = None ->
  startResearch ctorOk s = setShowAuthModal true s /\
  status (startResearch ctorOk s) = status s /\
  (status s = Idle -> status (startResearch ctorOk s) = Idle) /\
  running (startResearch ctorOk s) = running s /\
  conns (startResearch ctorOk s) = conns s /\
  connRef (startResearch ctorOk s) = connRef s /\
  lines (startResearch ctorOk s) = lines s /\
  result (startResearch ctorOk s) = result s /\
  error (startResearch ctorOk s) = error s /\
  (forall a, running s = false -> running (step s a) = false).
Proof.
  intros Huser. unfold startResearch at 1 2 3 4 5 6 7 8 9. rewrite Huser.
  repeat split; try done.
  intros a Hidle. destruct (running (step s a)) eqn:Hrun; [|done].
  destruct a as [v|v|u t| |i d r|ok| |c|c frame|c|c code|c frame|c|u t|v| |v];
    try (apply running_only_by_start in Hrun; [congruence | by intros ?]).
  cbn [step] in Hrun. unfold startResearch in Hrun.
  rewrite Huser in Hrun. simpl in Hrun. congruence.
Qed.

Lemma C10_start_needs_user_witness :
  status (startResearch true anonymous) = Idle /\
  conns (startResearch true anonymous) = [] /\
  showAuthModal (startResearch true anonymous) = true.
Proof.
  destruct (C10_start_needs_user true anonymous) as (Heq & _ & Hidle & _ & Hconns & _).
  - reflexivity.
  - split; [apply Hidle; reflexivity|]. split; [by rewrite Hconns|].
    by rewrite Heq.
Defined.

(** ** Closing and resetting *)

Lemma closeCurrent_lookup (call : CloseCall) (s : State) (c : nat) (x : Conn) :
  connRef s = Some c -> conns s !! c = Some x ->
  conns (closeCurrent call s) !! c = Some (closeConn call x).
Proof.
  intros Href Hc. unfold closeCurrent, closeAt. rewrite Href. simpl.
  by rewrite list_lookup_alter_eq, Hc.
Qed.

Lemma closeCurrent_length (call : CloseCall) (s : State) :
  length (conns (closeCurrent call s)) = length (conns s).
Proof.
  unfold closeCurrent, closeAt. destruct (connRef s); [|done].
  simpl. apply length_alter.
Qed.

Lemma closeConn_closed (call : CloseCall) (x : Conn) :
  closedByComponent (closeConn call x) = true.
Proof.
  destruct x as [req completed sent calls|req closed]; [|done].
  simpl. apply bool_decide_eq_true. by destruct calls.
Qed.

Lemma ws_onclose_normal (req : Request) (completed : bool) (s : State) :
  ws_onclose req completed 1000 s = s.
Proof. unfold ws_onclose. by rewrite andb_false_r. Qed.

Lemma ws_onclose_completed (req : Request) (code : Z) (s : State) :
  ws_onclose req true code s = s.
Proof. done. Qed.

(** C8, as the code has it: [reset] calls close on the transport [connRef]
    holds, with code 1000 and reason reset when it is the socket and with
    no code when it is the event source of the fallback, whose close takes
    none; it opens no transport; and a close event with code 1000 runs no
    fallback and changes nothing, in any state. *)
Theorem C8_reset_close_code (s : State) :
  (forall c req completed sent calls,
     connRef s = Some c ->
     conns s !! c = Some (WebSocket req completed sent calls) ->
     conns (reset s) !! c
       = Some (WebSocket req completed sent (calls ++ [CloseWith 1000 (js "reset")]))) /\
  (forall c req closed,
     connRef s = Some c -> conns s !! c = Some (EventSource req closed) ->
     conns (reset s) !! c = Some (EventSource req true)) /\
  length (conns (reset s)) = length (conns s) /\
  (forall c, step s (WsClose c 1000) = s).
Proof.
  repeat split.
  - intros c req completed sent calls Href Hc.
    apply (closeCurrent_lookup (CloseWith 1000 (js "reset")) s c _ Href Hc).
  - intros c req closed Href Hc.
    apply (closeCurrent_lookup (CloseWith 1000 (js "reset")) s c _ Href Hc).
  - apply closeCurrent_length.
  - intros c. cbn [step].
    destruct (conns s !! c) as [[req completed sent calls|req closed]|]; try done.
    apply ws_onclose_normal.
Qed.

Lemma C8_reset_close_code_witness :
  conns (reset started) = [WebSocket theRequest false [] [CloseWith 1000 (js "reset")]] /\
  step (reset started) (WsClose 0 1000) = reset started.
Proof.
  destruct (C8_reset_close_code started) as (Hws & _ & Hlen & _).
  destruct (C8_reset_close_code (reset started)) as (_ & _ & _ & Hclose).
  split; [|apply Hclose].
  specialize (Hws 0 theRequest false [] [] eq_refl eq_refl).
  destruct (conns (reset started)) as [|x [|y l]]; try discriminate Hlen.
  by injection Hws as ->.
Defined.

(** C8 as worded fails: the run is on the fallback, the open transport is
    the event source, and [reset] closes it without a code; no close with
    code 1000 is made on any transport. *)
Lemma C8_counterexample :
  status onFallback = Running /\
  connRef onFallback = Some 1 /\
  conns onFallback !! 1 = Some (EventSource theRequest false) /\
  conns (reset onFallback)
  = [WebSocket theRequest false [] []; EventSource theRequest true] /\
  concat (closeCodes <$> conns (reset onFallback)) = [].
Proof. repeat split. Qed.

(** The guard on the close code sits in [ws.onclose] only.  [ws.onerror]
    has none: an error event fired on the socket after a reset still starts
    the fallback. *)
Lemma error_after_reset_falls_back :
  conns (step (reset started) (WsError 0))
  = [WebSocket theRequest false [] [CloseWith 1000 (js "reset"); ClosePlain];
     EventSource theRequest false] /\
  wsStatus (step (reset started) (WsError 0)) = ws_sse.
Proof. split; reflexivity. Qed.

(** What [reset] does in every state: it puts the session back to Idle with
    an empty log, no result and no error message, and calls close on the
    transport [connRef] holds (code 1000 and reason reset on a socket).
    Handlers carry no generation mark: keeping later events out of the log
    rests on that close alone. *)
Lemma reset_returns_to_idle (s : State) :
  status (reset s) = Idle /\
  lines (reset s) = [] /\
  result (reset s) = None /\
  error (reset s) = [] /\
  running (reset s) = false /\
  done (reset s) = false /\
  (forall c x,
     connRef s = Some c -> conns s !! c = Some x ->
     conns (reset s) !! c = Some (closeConn (CloseWith 1000 (js "reset")) x) /\
     closedByComponent (closeConn (CloseWith 1000 (js "reset")) x) = true).
Proof.
  repeat split; try done.
  - intros. by apply (closeCurrent_lookup (CloseWith 1000 (js "reset")) s c x).
  - apply closeConn_closed.
Qed.

Lemma reset_returns_to_idle_witness :
  status (reset started) = Idle /\
  conns (reset started) !! 0
    = Some (WebSocket theRequest false [] [CloseWith 1000 (js "reset")]).
Proof.
  destruct (reset_returns_to_idle started) as (Hidle & _ & _ & _ & _ & _ & Hclosed).
  split; [done|].
  by destruct (Hclosed 0 (WebSocket theRequest false [] []) eq_refl eq_refl) as [-> _].
Defined.

(** When the socket was closed by the server without an error event the
    fallback was started once, and a reset leaves no transport open: the
    socket was closed by the other side, the event source by [reset]. *)
Lemma reset_after_single_fallback :
  conns onFallback = [WebSocket theRequest false [] []; EventSource theRequest false] /\
  connRef onFallback = Some 1 /\
  conns (reset onFallback)
  = [WebSocket theRequest false [] []; EventSource theRequest true].
Proof. repeat split. Qed.

(** C2: the code at the input where it departs from the claim.  The socket
    failed to connect, so the fallback was started twice (C1) and the
    event source number 1 was left open when number 2 took its place in
    [connRef].  [reset] closes number 2 and puts the session back to Idle
    with an empty log; number 1, never closed, then delivers a step event,
    and the event is appended to the log of the idle session. *)
Theorem C2_orphan_event_logged_after_reset :
  afterReset
  = run init [SignedIn alice (js "tok123"); TypeIdea (js "AI code review tool");
              StartResearch true; WsError 0; WsClose 0 1006; Reset] /\
  connRef afterFailedConnect = Some 2 /\
  conns afterReset
  = [WebSocket theRequest false [] [ClosePlain]; EventSource theRequest false;
     EventSource theRequest true] /\
  status afterReset = Idle /\
  lines afterReset = [] /\
  lines (step afterReset (EsMessage 1 (Some (event "step" "Plan Queries"))))
    = [{| id := 1; type := js "step"; ts := None; msg := Some (js "Plan Queries") |}] /\
  status (step afterReset (EsMessage 1 (Some (event "step" "Plan Queries")))) = Idle.
Proof. vm_compute. repeat split. Qed.

(** ** Terminal events *)

Lemma status_Running (s : State) :
  status s = Running <-> done s = false /\ running s = true.
Proof.
  unfold status. destruct (done s), (running s); try case_bool_decide;
    split; try discriminate; try (intros [? ?]; discriminate); done.
Qed.

(** On the states the component reaches [done] and [running] are never
    set together, so the order in which [status] tests them is immaterial. *)
Lemma status_unambiguous (s : State) :
  reachable s -> ~ (done s = true /\ running s = true).
Proof.
  intros Hs [Hdone Hrun].
  destruct (reachable_runningIsFresh s Hs Hrun) as [Hnot _]. congruence.
Qed.

Lemma handleEvent_ping (data : EventData) (s : State) :
  data_type data = js "ping" -> handleEvent data s = s.
Proof. intros H. unfold handleEvent. by rewrite decide_True. Qed.

Lemma handleEvent_complete (data : EventData) (s : State) :
  data_type data = js "complete" ->
  handleEvent data s
  = s |> setResult (data_result data) |> setDone true |> setRunning false
      |> setTermCollapsed true |> closeCurrent ClosePlain.
Proof.
  intros H. unfold handleEvent. rewrite H. by rewrite decide_False, decide_True.
Qed.

Lemma handleEvent_error (data : EventData) (s : State) :
  data_type data = js "error" ->
  handleEvent data s
  = s |> setError (or_else (data_msg data) (js "Agent error")) |> setRunning false.
Proof.
  intros H. unfold handleEvent. rewrite H.
  by rewrite decide_False, decide_False, decide_True.
Qed.

Lemma or_else_nonempty (v : option jsstring) (d : jsstring) :
  d <> [] -> or_else v d <> [].
Proof. by destruct v as [[|c r]|]. Qed.

(** What a complete event does, whichever handler passes it on. *)
Lemma complete_effect (data : EventData) (s : State) :
  data_type data = js "complete" ->
  status (handleEvent data s) = Done /\
  result (handleEvent data s) = data_result data /\
  lines (handleEvent data s) = lines s /\
  error (handleEvent data s) = error s /\
  (forall c x, connRef s = Some c -> conns s !! c = Some x ->
     conns (handleEvent data s) !! c = Some (closeConn ClosePlain x)).
Proof.
  intros H. rewrite (handleEvent_complete _ _ H).
  unfold closeCurrent; simpl. split; [|split; [|split; [|split]]].
  - by destruct (connRef s).
  - by destruct (connRef s).
  - by destruct (connRef s).
  - by destruct (connRef s).
  - intros c x Href Hc. rewrite Href. unfold closeAt; simpl.
    by rewrite list_lookup_alter_eq, Hc.
Qed.

(** What a complete event does in every running state: it makes the session
    Done, stores the payload as the result, leaves the log as it is and
    calls a plain close on the transport [connRef] holds (on the socket
    that delivered it, [wsCompleted] is set as well); the close event the
    socket then fires runs no fallback and changes nothing, whatever its
    code.  [handleEvent] tests the kind of the event only, not the status:
    nothing but the closed transport keeps later events out. *)
Lemma complete_finishes_run (s : State) (c : nat) (data : EventData) :
  status s = Running -> data_type data = js "complete" ->
  (forall req completed sent calls,
     conns s !! c = Some (WebSocket req completed sent calls) ->
     status (step s (WsMessage c (Some data))) = Done /\
     result (step s (WsMessage c (Some data))) = data_result data /\
     lines (step s (WsMessage c (Some data))) = lines s /\
     (forall k x, connRef s = Some k -> conns s !! k = Some x ->
        conns (step s (WsMessage c (Some data))) !! k
        = Some (closeConn ClosePlain (if decide (c = k) then markCompleted x else x))) /\
     (forall code,
        step (step s (WsMessage c (Some data))) (WsClose c code)
        = step s (WsMessage c (Some data)))) /\
  (forall req closed,
     conns s !! c = Some (EventSource req closed) ->
     status (step s (EsMessage c (Some data))) = Done /\
     result (step s (EsMessage c (Some data))) = data_result data /\
     lines (step s (EsMessage c (Some data))) = lines s /\
     (forall k x, connRef s = Some k -> conns s !! k = Some x ->
        conns (step s (EsMessage c (Some data))) !! k
        = Some (closeConn ClosePlain x))).
Proof.
  intros _ Hkind. split.
  - intros req completed sent calls Hc. cbn [step]. rewrite Hc.
    unfold ws_onmessage. rewrite decide_True by done.
    set (s1 := s |> setConns (alter markCompleted c (conns s))).
    destruct (complete_effect data s1 Hkind) as (Hst & Hres & Hl & _ & Hclose).
    assert (Hmark : conns s1 !! c = Some (WebSocket req true sent calls))
      by (unfold s1; simpl; by rewrite list_lookup_alter_eq, Hc).
    split; [done|]. split; [done|]. split; [done|]. split.
    + intros k x Href Hk. apply Hclose; [done|].
      unfold s1; simpl. rewrite list_lookup_alter.
      case_decide; [subst k|]; by rewrite Hk.
    + intros code. cbn [step].
      assert (exists sent' calls',
                 conns (handleEvent data s1) !! c
                 = Some (WebSocket req true sent' calls')) as (sent' & calls' & ->).
      { rewrite (handleEvent_complete _ _ Hkind). unfold closeCurrent.
        unfold s1 in Hmark. simpl in Hmark. simpl.
        destruct (connRef s) as [k|]; [|eauto]. unfold closeAt; simpl.
        rewrite list_lookup_alter.
        case_decide; [subst k|]; rewrite Hmark; simpl; eauto. }
      done.
  - intros req closed Hc. cbn [step]. rewrite Hc. simpl.
    destruct (complete_effect data s Hkind) as (Hst & Hres & Hl & _ & Hclose).
    split; [done|]. split; [done|]. split; [done|].
    intros k x Href Hk. by apply Hclose.
Qed.

Lemma complete_finishes_run_witness :
  status (step started (WsMessage 0 (Some completeEvent))) = Done /\
  step (step started (WsMessage 0 (Some completeEvent))) (WsClose 0 1005)
  = step started (WsMessage 0 (Some completeEvent)).
Proof.
  destruct (complete_finishes_run started 0 completeEvent) as [Hws _].
  - reflexivity.
  - reflexivity.
  - destruct (Hws theRequest false [] [] eq_refl) as (Hdone & _ & _ & _ & Hclose).
    split; [exact Hdone | apply Hclose].
Defined.

(** When the fallback was started once, the complete event closes the only
    open transport. *)
Lemma complete_after_single_fallback :
  status onFallback = Running /\
  status (step onFallback (EsMessage 1 (Some completeEvent))) = Done /\
  conns (step onFallback (EsMessage 1 (Some completeEvent)))
  = [WebSocket theRequest false [] []; EventSource theRequest true].
Proof. repeat split. Qed.

(** C3: the code at the input where it departs from the claim.  The socket
    failed to connect, so the fallback was started twice (C1) and the
    event source number 1 was left open when number 2 took its place in
    [connRef].  The complete event arrives over number 2: the session is
    Done and number 2 is closed.  Number 1, never closed, then delivers a
    step event, and the event is appended to the log of the finished
    session. *)
Theorem C3_orphan_event_logged_after_done :
  afterComplete
  = run init [SignedIn alice (js "tok123"); TypeIdea (js "AI code review tool");
              StartResearch true; WsError 0; WsClose 0 1006;
              EsMessage 2 (Some completeEvent)] /\
  status afterFailedConnect = Running /\
  status afterComplete = Done /\
  conns afterComplete
  = [WebSocket theRequest false [] [ClosePlain]; EventSource theRequest false;
     EventSource theRequest true] /\
  lines afterComplete = [] /\
  lines (step afterComplete (EsMessage 1 (Some (event "step" "Plan Queries"))))
    = [{| id := 1; type := js "step"; ts := None; msg := Some (js "Plan Queries") |}] /\
  step afterComplete (EsMessage 1 (Some (event "step" "Plan Queries"))) <> afterComplete.
Proof. vm_compute. repeat split. discriminate. Qed.

(** C6, as the code has it: an error event received while running makes the
    session Error; the error message is the event's [msg] when that is a
    non-empty string and the text Agent error when it is empty or absent.
    The log and its counter are untouched, the result stays absent, and no
    transport is closed or opened. *)
Theorem C6_error_event (s : State) (data : EventData) :
  reachable s -> status s = Running -> data_type data = js "error" ->
  status (handleEvent data s) = Error /\
  error (handleEvent data s) = or_else (data_msg data) (js "Agent error") /\
  (forall m, data_msg data = Some m -> m <> [] -> error (handleEvent data s) = m) /\
  (data_msg data = None \/ data_msg data = Some [] ->
     error (handleEvent data s) = js "Agent error") /\
  lines (handleEvent data s) = lines s /\
  idRef (handleEvent data s) = idRef s /\
  result (handleEvent data s) = None /\
  conns (handleEvent data s) = conns s /\
  connRef (handleEvent data s) = connRef s.
Proof.
  intros Hreach [Hdone Hrun]%status_Running Hkind.
  rewrite (handleEvent_error _ _ Hkind). simpl. repeat split.
  - unfold status; simpl. rewrite Hdone. rewrite bool_decide_eq_false_2; [done|].
    by apply or_else_nonempty.
  - intros m -> Hm. by destruct m.
  - by intros [-> | ->].
  - by apply (reachable_runningIsFresh s Hreach).
Qed.

Lemma C6_error_event_witness :
  status (handleEvent (event "error" "rate limited") started) = Error /\
  error (handleEvent (event "error" "rate limited") started) = js "rate limited".
Proof.
  destruct (C6_error_event started (event "error" "rate limited"))
    as (Hst & _ & Hmsg & _).
  - by exists [SignedIn alice (js "tok123"); TypeIdea (js "AI code review tool");
               StartResearch true].
  - reflexivity.
  - reflexivity.
  - split; [exact Hst | by apply Hmsg].
Defined.

(** C6 as worded fails for the empty message: the error message becomes the
    default text, not the empty string the event carries. *)
Lemma C6_counterexample :
  status started = Running /\
  data_msg emptyErrorEvent = Some [] /\
  error (handleEvent emptyErrorEvent started) = js "Agent error" /\
  error (handleEvent emptyErrorEvent started) <> [].
Proof. repeat split. discriminate. Qed.

(** ** Falling back to the event source *)

(** An abnormal close before completion, on its own, issues the request of
    the socket once more, over one new event source. *)
Lemma abnormal_close_falls_back (s : State) (c : nat) (req : Request)
    (sent : list Request) (calls : list CloseCall) (code : Z) :
  conns s !! c = Some (WebSocket req false sent calls) -> code <> 1000%Z ->
  conns (step s (WsClose c code)) = conns s ++ [EventSource req false] /\
  connRef (step s (WsClose c code)) = Some (length (conns s)) /\
  wsStatus (step s (WsClose c code)) = ws_sse.
Proof.
  intros Hc Hcode. cbn [step]. rewrite Hc. unfold ws_onclose.
  replace (code =? 1000)%Z with false by (symmetry; by apply Z.eqb_neq).
  simpl. by destruct req.
Qed.

(** So does the error handler, whatever happened before. *)
Lemma error_falls_back (s : State) (c : nat) (req : Request) (completed : bool)
    (sent : list Request) (calls : list CloseCall) :
  conns s !! c = Some (WebSocket req completed sent calls) ->
  conns (step s (WsError c))
  = alter (closeConn ClosePlain) c (conns s) ++ [EventSource req false].
Proof. intros Hc. cbn [step]. rewrite Hc. simpl. by destruct req. Qed.

(** A failing event source ends the run with the connection message. *)
Lemma fallback_failure_is_error (s : State) (c : nat) (req : Request) (closed : bool) :
  conns s !! c = Some (EventSource req closed) -> done s = false ->
  status (step s (EsError c)) = Error /\
  error (step s (EsError c)) = connectionFailedMessage /\
  wsStatus (step s (EsError c)) = ws_error /\
  conns (step s (EsError c)) !! c = Some (EventSource req true).
Proof.
  intros Hc Hdone. cbn [step]. rewrite Hc. unfold es_onerror, status; simpl.
  rewrite Hdone. repeat split. by rewrite list_lookup_alter_eq, Hc.
Qed.

(** Both handlers run when a connection fails, and each of them starts the
    fallback. *)
Lemma error_then_close_falls_back_twice (s : State) (c : nat) (req : Request)
    (sent : list Request) (calls : list CloseCall) (code : Z) :
  conns s !! c = Some (WebSocket req false sent calls) -> code <> 1000%Z ->
  conns (run s [WsError c; WsClose c code])
  = alter (closeConn ClosePlain) c (conns s)
    ++ [EventSource req false; EventSource req false].
Proof.
  intros Hc Hcode.
  change (run s [WsError c; WsClose c code])
    with (step (step s (WsError c)) (WsClose c code)).
  assert (Hc' : conns (step s (WsError c)) !! c
                = Some (WebSocket req false sent (calls ++ [ClosePlain]))).
  { rewrite (error_falls_back _ _ _ _ _ _ Hc).
    rewrite lookup_app_l by (rewrite length_alter; by eapply lookup_lt_Some).
    by rewrite list_lookup_alter_eq, Hc. }
  destruct (abnormal_close_falls_back _ _ _ _ _ _ Hc' Hcode) as (-> & _ & _).
  rewrite (error_falls_back _ _ _ _ _ _ Hc). by rewrite <- (assoc_L (++)).
Qed.

(** C1, the code at the input where it departs from the claim: the socket
    fails to connect, so the browser fires error and then close with code
    1006 on it.  [ws.onerror] runs [fallbackToSSE], and [ws.onclose], seeing
    no completion and a code other than 1000, runs it again: the same
    request is issued over two event sources, of which [connRef] holds the
    second. *)
Theorem C1_fallback_issued_twice :
  status started = Running /\
  conns started = [WebSocket theRequest false [] []] /\
  conns afterFailedConnect
  = [WebSocket theRequest false [] [ClosePlain];
     EventSource theRequest false; EventSource theRequest false] /\
  length (filter isEventSource (conns afterFailedConnect)) = 2 /\
  connRef afterFailedConnect = Some 2.
Proof. repeat split. Qed.

(** ** The walk-through, step by step *)

Example walkThrough_stages :
  stageAfter 2 = (-1)%Z /\ stageAfter 4 = 0%Z /\ stageAfter 5 = 0%Z /\
  stageAfter 6 = 1%Z /\ stageAfter 7 = 1%Z /\ stageAfter 8 = 8%Z.
Proof. repeat split. Qed.

Example walkThrough_end :
  status (run init walkThrough) = Done /\
  wsStatus (run init walkThrough) = ws_sse /\
  result (run init walkThrough) = Some {| json := js "{}" |} /\
  conns (run init walkThrough)
  = [WebSocket theRequest false [theRequest] []; EventSource theRequest true].
Proof. repeat split. Qed.

(** * Further properties of the component *)

(** ** Trimming *)

Lemma trimStart_head (s : jsstring) : headNotSpace (trimStart s).
Proof.
  induction s as [|c s IH]; simpl; [done|].
  destruct (isWhiteSpace c) eqn:Hc; [done|]. simpl. done.
Qed.

Lemma trimStart_fixed (s : jsstring) : headNotSpace s -> trimStart s = s.
Proof. destruct s as [|c s]; simpl; [done|]. by intros ->. Qed.

Lemma trimStart_suffix (s : jsstring) : exists pre, s = pre ++ trimStart s.
Proof.
  induction s as [|c s [pre IH]]; simpl; [by exists []|].
  destruct (isWhiteSpace c).
  - exists (c :: pre). simpl. by rewrite <- IH.
  - by exists [].
Qed.

Lemma headNotSpace_prefix (s t : jsstring) :
  headNotSpace (s ++ t) -> headNotSpace s.
Proof. by destruct s. Qed.

Lemma trim_trimmed (s : jsstring) : trimmed (trim s).
Proof.
  unfold trim, trimmed. rewrite reverse_involutive. split; [|apply trimStart_head].
  destruct (trimStart_suffix (reverse (trimStart s))) as [pre Hpre].
  apply (headNotSpace_prefix _ (reverse pre)).
  rewrite <- reverse_app, <- Hpre, reverse_involutive. apply trimStart_head.
Qed.

Lemma trim_fixed (s : jsstring) : trimmed s -> trim s = s.
Proof.
  intros [Hhead Hlast]. unfold trim.
  by rewrite (trimStart_fixed s), (trimStart_fixed (reverse s)), reverse_involutive.
Qed.

Lemma trim_idempotent (s : jsstring) : trim (trim s) = trim s.
Proof. apply trim_fixed, trim_trimmed. Qed.

(** ** The transport objects *)

Lemma transportOk_closeConn (call : CloseCall) (x : Conn) :
  transportOk x -> transportOk (closeConn call x).
Proof. by destruct x. Qed.

Lemma transportOk_markCompleted (x : Conn) :
  transportOk x -> transportOk (markCompleted x).
Proof. by destruct x. Qed.

Lemma transportsInv_same (s s' : State) :
  connRef s' = connRef s -> conns s' = conns s ->
  transportsInv s -> transportsInv s'.
Proof. unfold transportsInv, connRefLatest. by intros -> ->. Qed.

Lemma transportsInv_alter (f : Conn -> Conn) (c : nat) (s s' : State) :
  connRef s' = connRef s -> conns s' = alter f c (conns s) ->
  (forall x, conns s !! c = Some x -> transportOk x -> transportOk (f x)) ->
  transportsInv s -> transportsInv s'.
Proof.
  unfold transportsInv, connRefLatest. intros -> -> Hf [Href Hall]. split.
  - destruct (connRef s); [by rewrite length_alter|].
    by rewrite Href.
  - by apply Forall_alter.
Qed.

Lemma transportsInv_new (x : Conn) (s s' : State) :
  connRef s' = Some (length (conns s)) -> conns s' = conns s ++ [x] ->
  transportOk x -> transportsInv s -> transportsInv s'.
Proof.
  unfold transportsInv, connRefLatest. intros -> -> Hx [_ Hall]. split.
  - rewrite length_app. simpl. lia.
  - apply Forall_app. split; [done|]. by constructor.
Qed.

Lemma transportsInv_closeAt (c : nat) (call : CloseCall) (s : State) :
  transportsInv s -> transportsInv (closeAt c call s).
Proof.
  apply (transportsInv_alter (closeConn call) c); try done.
  intros x _. apply transportOk_closeConn.
Qed.

Lemma transportsInv_closeCurrent (call : CloseCall) (s : State) :
  transportsInv s -> transportsInv (closeCurrent call s).
Proof.
  unfold closeCurrent. destruct (connRef s) eqn:Href; [|done].
  apply transportsInv_closeAt.
Qed.

Lemma transportsInv_handleEvent (data : EventData) (s : State) :
  transportsInv s -> transportsInv (handleEvent data s).
Proof.
  intros Hs. unfold handleEvent. repeat case_decide; try done.
  apply transportsInv_closeCurrent. revert Hs. by apply transportsInv_same.
Qed.

Lemma transportsInv_fallbackToSSE (t i d : jsstring) (s : State) :
  wellFormedRequest {| req_idea := i; req_description := d; req_token := t |} ->
  transportsInv s -> transportsInv (fallbackToSSE t i d s).
Proof.
  intros Hreq.
  apply (transportsInv_new
           (EventSource {| req_idea := i; req_description := d; req_token := t |}
                        false)); try done.
Qed.

Lemma transportsInv_lookup (s : State) (c : nat) (x : Conn) :
  transportsInv s -> conns s !! c = Some x -> transportOk x.
Proof. intros [_ Hall] Hc. by apply (Forall_lookup_1 _ _ _ _ Hall Hc). Qed.

Lemma transportsInv_startResearch (ctorOk : bool) (s : State) :
  transportsInv s -> transportsInv (startResearch ctorOk s).
Proof.
  intros Hs. unfold startResearch. destruct (user s); [|done].
  case_bool_decide as Hidea; simpl; [done|].
  destruct (running s); simpl; [done|].
  assert (Hreq : wellFormedRequest {| req_idea := trim (idea s);
                                      req_description := trim (description s);
                                      req_token := token s |})
    by (split; [done | split; apply trim_trimmed]).
  destruct ctorOk.
  - revert Hs.
    apply (transportsInv_new
             (WebSocket {| req_idea := trim (idea s);
                           req_description := trim (description s);
                           req_token := token s |} false [] [])); try done.
  - apply transportsInv_fallbackToSSE; [done|].
    revert Hs. by apply transportsInv_same.
Qed.

Lemma transportsInv_step (s : State) (a : Action) :
  transportsInv s -> transportsInv (step s a).
Proof.
  intros Hs.
  destruct a as [v|v|u t| |i d r|ctorOk| |c|c frame|c|c code|c frame|c|u t|v| |v];
    cbn [step];
    try destruct (conns s !! c) as [[req completed sent calls|req closed]|] eqn:Hc;
    try done.
  - by apply transportsInv_startResearch.
  - unfold reset. revert Hs.
    intros Hs%(transportsInv_closeCurrent (CloseWith 1000 (js "reset"))).
    revert Hs. by apply transportsInv_same.
  - unfold ws_onopen.
    eapply (transportsInv_alter _ c s); [reflexivity | reflexivity | | exact Hs].
    intros x Hx. rewrite Hc in Hx. injection Hx as <-.
    intros [Hreq Hsent]. split; [done|]. simpl in *.
    apply Forall_app. split; [done|]. by constructor.
  - unfold ws_onmessage. destruct frame as [payload|]; [|done].
    apply transportsInv_handleEvent. case_decide; [|done].
    revert Hs. apply (transportsInv_alter markCompleted c); try done.
    intros x _. apply transportOk_markCompleted.
  - pose proof (transportsInv_lookup _ _ _ Hs Hc) as [Hreq _].
    unfold ws_onerror. destruct req as [i d t].
    apply transportsInv_fallbackToSSE; [done|].
    by apply transportsInv_closeAt.
  - pose proof (transportsInv_lookup _ _ _ Hs Hc) as [Hreq _].
    unfold ws_onclose. case_match; [|done]. destruct req as [i d t].
    by apply transportsInv_fallbackToSSE.
  - destruct frame as [data|]; [|done]. by apply transportsInv_handleEvent.
  - unfold es_onerror.
    apply (transportsInv_same (closeAt c ClosePlain s)); try done.
    by apply transportsInv_closeAt.
  - unfold storedSession. by case_bool_decide.
Qed.

Lemma reachable_transportsInv (s : State) : reachable s -> transportsInv s.
Proof.
  apply reachable_ind.
  - split; [done | constructor].
  - intros s0 a _. apply transportsInv_step.
Qed.

(** X1: in every state the component reaches, [connRef] holds the transport
    object constructed last, and is empty only while none was constructed. *)
Theorem connRef_holds_latest_transport (tr : list Action) :
  match connRef (run init tr) with
  | None => conns (run init tr) = []
  | Some c => S c = length (conns (run init tr))
  end.
Proof. apply (reachable_transportsInv (run init tr)). by exists tr. Qed.

(** X2: every transport object the component ever constructs carries a
    request whose idea is non-empty and whose idea and description have no
    white space at either end, and every frame sent over a socket is the
    very request the socket was constructed for. *)
Theorem requests_well_formed (tr : list Action) :
  Forall (fun x => (req_idea (requestOf x) <> [] /\
                    trimmed (req_idea (requestOf x)) /\
                    trimmed (req_description (requestOf x))) /\
                   Forall (eq (requestOf x)) (framesSent x))
         (conns (run init tr)).
Proof. apply (reachable_transportsInv (run init tr)). by exists tr. Qed.

(** ** The session cells *)

(** Closing touches the transport objects only. *)
Lemma closeCurrent_cells (call : CloseCall) (s : State) :
  closeCurrent call s = setConns (conns (closeCurrent call s)) s.
Proof.
  unfold closeCurrent, closeAt. destruct (connRef s); by destruct s.
Qed.

Lemma flagsConsistent_handleEvent (data : EventData) (s : State) :
  flagsConsistent s -> flagsConsistent (handleEvent data s).
Proof.
  unfold flagsConsistent, handleEvent. intros (Hrun & Hres).
  repeat case_decide; simpl; try done.
  rewrite closeCurrent_cells. simpl. done.
Qed.

Lemma flagsConsistent_step (s : State) (a : Action) :
  flagsConsistent s -> flagsConsistent (step s a).
Proof.
  intros Hs. pose proof Hs as (Hrun & Hres).
  destruct a as [v|v|u t| |i d r|ctorOk| |c|c frame|c|c code|c frame|c|u t|v| |v];
    cbn [step];
    try destruct (conns s !! c) as [[req completed sent calls|req closed]|];
    try exact Hs.
  - unfold flagsConsistent; simpl. split; [congruence | done].
  - unfold startResearch. destruct (user s) eqn:Hu; [|exact Hs].
    destruct (_ || _); [exact Hs|].
    destruct ctorOk; unfold flagsConsistent; simpl; (split; [done | congruence]).
  - unfold reset, flagsConsistent. rewrite closeCurrent_cells. simpl.
    split; congruence.
  - unfold ws_onmessage. destruct frame as [payload|]; [|exact Hs].
    case_decide; by apply flagsConsistent_handleEvent.
  - unfold ws_onclose. case_match; exact Hs.
  - destruct frame as [data|]; [|exact Hs]. by apply flagsConsistent_handleEvent.
  - unfold flagsConsistent. simpl. split; [congruence | done].
  - unfold storedSession. case_bool_decide; exact Hs.
Qed.

(** X3: in every state the component reaches, a run in progress means that
    nothing has completed, no result is held and no error message is set;
    and a result is held only when the session is done. *)
Theorem session_cells_consistent (tr : list Action) :
  (running (run init tr) = true ->
     done (run init tr) = false /\ result (run init tr) = None /\
     error (run init tr) = []) /\
  (result (run init tr) <> None -> done (run init tr) = true).
Proof.
  apply (reachable_ind flagsConsistent); [| |by exists tr].
  - unfold flagsConsistent. simpl. done.
  - intros s a _. apply flagsConsistent_step.
Qed.

Lemma session_cells_consistent_witness :
  done started = false /\ result started = None /\ error started = [].
Proof.
  destruct (session_cells_consistent
              [SignedIn alice (js "tok123"); TypeIdea (js "AI code review tool");
               StartResearch true]) as [Hrun _].
  apply Hrun. vm_compute. reflexivity.
Defined.


(** ** Transport objects are never dropped, reopened or rewritten *)

Lemma keepsTransport_refl (x : Conn) : keepsTransport x x.
Proof. by repeat split. Qed.

Lemma keepsTransport_trans (x y z : Conn) :
  keepsTransport x y -> keepsTransport y z -> keepsTransport x z.
Proof.
  intros (Hr1 & Hk1 & Hc1 & Hs1) (Hr2 & Hk2 & Hc2 & Hs2).
  split; [congruence|]. split; [congruence|]. split; [auto|].
  by etrans.
Qed.

Lemma keepsTransport_closeConn (call : CloseCall) (x : Conn) :
  keepsTransport x (closeConn call x).
Proof.
  destruct x as [req completed sent calls|req closed]; repeat split; simpl; try done.
  intros _. apply bool_decide_eq_true. by destruct calls.
Qed.

Lemma keepsTransport_markCompleted (x : Conn) : keepsTransport x (markCompleted x).
Proof. destruct x; by repeat split. Qed.

Lemma transportsPersist_refl (l : list Conn) : transportsPersist l l.
Proof. intros c x Hc. exists x. split; [done | apply keepsTransport_refl]. Qed.

Lemma transportsPersist_trans (l1 l2 l3 : list Conn) :
  transportsPersist l1 l2 -> transportsPersist l2 l3 -> transportsPersist l1 l3.
Proof.
  intros H12 H23 c x Hc. destruct (H12 c x Hc) as (y & Hy & Hxy).
  destruct (H23 c y Hy) as (z & Hz & Hyz). exists z.
  split; [done | by eapply keepsTransport_trans].
Qed.

Lemma transportsPersist_alter (f : Conn -> Conn) (k : nat) (l : list Conn) :
  (forall x, l !! k = Some x -> keepsTransport x (f x)) ->
  transportsPersist l (alter f k l).
Proof.
  intros Hf c x Hc. rewrite list_lookup_alter. case_decide as Hkc.
  - subst k. rewrite Hc. simpl. exists (f x). split; [done | by apply Hf].
  - exists x. split; [done | apply keepsTransport_refl].
Qed.

Lemma transportsPersist_app (l k : list Conn) : transportsPersist l (l ++ k).
Proof.
  intros c x Hc. exists x. split; [|apply keepsTransport_refl].
  by apply lookup_app_l_Some.
Qed.

Lemma persist_closeAt (c : nat) (call : CloseCall) (s : State) :
  transportsPersist (conns s) (conns (closeAt c call s)).
Proof.
  apply transportsPersist_alter. intros x _. apply keepsTransport_closeConn.
Qed.

Lemma persist_closeCurrent (call : CloseCall) (s : State) :
  transportsPersist (conns s) (conns (closeCurrent call s)).
Proof.
  unfold closeCurrent. destruct (connRef s);
    [apply persist_closeAt | apply transportsPersist_refl].
Qed.

Lemma persist_handleEvent (data : EventData) (s : State) :
  transportsPersist (conns s) (conns (handleEvent data s)).
Proof.
  unfold handleEvent. repeat case_decide; try apply transportsPersist_refl.
  apply (persist_closeCurrent ClosePlain
           (s |> setResult (data_result data) |> setDone true |> setRunning false
              |> setTermCollapsed true)).
Qed.

Lemma handleEvent_length (data : EventData) (s : State) :
  length (conns (handleEvent data s)) = length (conns s).
Proof.
  unfold handleEvent. repeat case_decide; try done.
  by rewrite closeCurrent_length.
Qed.

Lemma persist_step (s : State) (a : Action) :
  transportsPersist (conns s) (conns (step s a)) /\
  length (conns (step s a)) <= S (length (conns s)).
Proof.
  destruct a as [v|v|u t| |i d r|ctorOk| |c|c frame|c|c code|c frame|c|u t|v| |v];
    cbn [step];
    try destruct (conns s !! c) as [[req completed sent calls|req closed]|] eqn:Hc;
    try (split; [apply transportsPersist_refl | simpl; lia]).
  - unfold startResearch. destruct (user s); [|split; [apply transportsPersist_refl | simpl; lia]].
    destruct (_ || _); [split; [apply transportsPersist_refl | simpl; lia]|].
    destruct ctorOk; simpl; (split; [apply transportsPersist_app | rewrite length_app; simpl; lia]).
  - unfold reset. simpl. split.
    + apply persist_closeCurrent.
    + rewrite closeCurrent_length. lia.
  - unfold ws_onopen. simpl. split; [|rewrite length_alter; lia].
    apply transportsPersist_alter. intros x Hx. rewrite Hc in Hx.
    injection Hx as <-. repeat split; simpl; try done. by apply prefix_app_r.
  - unfold ws_onmessage. destruct frame as [payload|];
      [|split; [apply transportsPersist_refl | simpl; lia]].
    set (s1 := if decide (data_type payload = js "complete")
               then s |> setConns (alter markCompleted c (conns s)) else s).
    assert (H1 : transportsPersist (conns s) (conns s1) /\
                 length (conns s1) = length (conns s)).
    { unfold s1. case_decide; simpl.
      - split; [|apply length_alter]. apply transportsPersist_alter.
        intros x _. apply keepsTransport_markCompleted.
      - split; [apply transportsPersist_refl | done]. }
    destruct H1 as [H1 Hlen]. split.
    + eapply transportsPersist_trans; [exact H1 | apply persist_handleEvent].
    + rewrite handleEvent_length. lia.
  - unfold ws_onerror. destruct req as [i d t]. simpl. split.
    + eapply transportsPersist_trans; [|apply transportsPersist_app].
      apply transportsPersist_alter. intros x _. apply keepsTransport_closeConn.
    + rewrite length_app, length_alter. simpl. lia.
  - unfold ws_onclose. case_match; [|split; [apply transportsPersist_refl | simpl; lia]].
    destruct req as [i d t]. simpl.
    split; [apply transportsPersist_app | rewrite length_app; simpl; lia].
  - destruct frame as [data|]; [|split; [apply transportsPersist_refl | simpl; lia]].
    simpl. split; [apply persist_handleEvent|].
    rewrite handleEvent_length. lia.
  - unfold es_onerror. simpl. split; [|rewrite length_alter; lia].
    apply transportsPersist_alter. intros x _. apply keepsTransport_closeConn.
  - unfold storedSession. case_bool_decide; (split; [apply transportsPersist_refl | simpl; lia]).
Qed.

(** X4: whatever callbacks run, a transport object that exists stays in
    place with the request and the kind it was constructed with; once the
    component has closed it, it stays closed; the frames sent over it only
    grow.  One callback constructs at most one transport object. *)
Theorem transports_persist (s : State) (tr : list Action) (c : nat) (x : Conn) :
  conns s !! c = Some x ->
  (exists x', conns (run s tr) !! c = Some x' /\
              requestOf x' = requestOf x /\
              isEventSource x' = isEventSource x /\
              (closedByComponent x = true -> closedByComponent x' = true) /\
              framesSent x `prefix_of` framesSent x') /\
  (forall a, length (conns (step s a)) <= S (length (conns s))).
Proof.
  intros Hc. split; [|intros a; apply persist_step].
  assert (transportsPersist (conns s) (conns (run s tr))) as Hp; [|by apply Hp].
  clear. induction tr as [|a tr IH] using rev_ind; [apply transportsPersist_refl|].
  rewrite run_snoc. eapply transportsPersist_trans; [exact IH | apply persist_step].
Qed.

Lemma transports_persist_witness :
  exists x', conns (run (reset started) [WsClose 0 1000; StartResearch true]) !! 0
             = Some x' /\
             requestOf x' = theRequest /\ closedByComponent x' = true.
Proof.
  destruct (transports_persist (reset started) [WsClose 0 1000; StartResearch true] 0
              (WebSocket theRequest false [] [CloseWith 1000 (js "reset")]))
    as [(x' & Hx & Hreq & _ & Hclosed & _) _].
  - vm_compute. reflexivity.
  - exists x'. split; [exact Hx|]. split; [exact Hreq|]. apply Hclosed.
    vm_compute. reflexivity.
Defined.

(** ** The progress strip *)

Lemma currentStep_running_range (ls : list LogLine) :
  (0 <= currentStep false true ls <= 7)%Z.
Proof.
  unfold currentStep; simpl. case_bool_decide; [lia|].
  destruct (find isStepLine (reverse ls)); [apply stageOfMessage_range | lia].
Qed.

Lemma PipelineProgress_running (k : nat) :
  k < 8 ->
  looks (PipelineProgress (Z.of_nat k) false)
  = replicate k LookDone ++ [LookActive] ++ replicate (7 - k) LookIdle /\
  pv_label (PipelineProgress (Z.of_nat k) false)
  = numberToString (Z.of_nat k) ++ js "/8 nodes" /\
  checkedNodes (PipelineProgress (Z.of_nat k) false) = k.
Proof.
  intros Hk.
  do 8 (destruct k as [|k]; [by vm_compute|]). lia.
Qed.

(** X5: the progress strip agrees with itself.  While a run is in progress
    the stage k is between 0 and 7, the k nodes before it are drawn with a
    check mark, node k alone is drawn active, the later ones idle, and the
    counter reads k/8 nodes, k being the number of check marks.  Once done,
    all eight nodes carry a check mark, none is active and the counter
    reads 8/8 complete.  Otherwise the strip is not rendered. *)
Theorem progress_strip_consistent (s : State) :
  (done s = true ->
     exists v, pipelinePanel s = Some v /\
               looks v = replicate 8 LookDone /\
               pv_label v = js "8/8 complete" /\ checkedNodes v = 8) /\
  (done s = false -> running s = true ->
     exists k v, k < 8 /\
       currentStep (done s) (running s) (lines s) = Z.of_nat k /\
       pipelinePanel s = Some v /\
       looks v = replicate k LookDone ++ [LookActive] ++ replicate (7 - k) LookIdle /\
       pv_label v = numberToString (Z.of_nat k) ++ js "/8 nodes" /\
       checkedNodes v = k) /\
  (done s = false -> running s = false -> pipelinePanel s = None).
Proof.
  unfold pipelinePanel. split; [|split].
  - intros ->. rewrite orb_true_r. eexists. split; [reflexivity|].
    by vm_compute.
  - intros -> ->.
    pose proof (currentStep_running_range (lines s)) as Hrange.
    destruct (currentStep false true (lines s)) as [|cs|cs] eqn:Hcs; [| |lia].
    + exists 0. eexists. split; [lia|]. split; [reflexivity|].
      split; [reflexivity|]. apply (PipelineProgress_running 0). lia.
    + exists (Pos.to_nat cs). eexists. split; [lia|]. split; [lia|].
      split; [reflexivity|]. rewrite <- (positive_nat_Z cs).
      apply PipelineProgress_running. lia.
  - by intros -> ->.
Qed.

Lemma progress_strip_consistent_witness :
  exists v, pipelinePanel (run init (take 6 walkThrough)) = Some v /\
            looks v = [LookDone; LookActive; LookIdle; LookIdle; LookIdle;
                       LookIdle; LookIdle; LookIdle] /\
            pv_label v = js "1/8 nodes".
Proof.
  destruct (progress_strip_consistent (run init (take 6 walkThrough)))
    as (_ & Hrun & _).
  destruct Hrun as (k & v & Hk & Hstage & Hpanel & Hlooks & Hlabel & _).
  - reflexivity.
  - reflexivity.
  - assert (k = 1) as -> by (apply Nat2Z.inj; rewrite <- Hstage; reflexivity).
    exists v. split; [exact Hpanel|]. split; [exact Hlooks | exact Hlabel].
Defined.

(** ** Line colours *)

Lemma lineStyle_hidden (t : jsstring) :
  lineStyle t = OwnString (js "hidden") <-> t = js "ping".
Proof.
  split; [|intros ->; reflexivity].
  unfold lineStyle, lineStyleTable. simpl ownProperty.
  repeat (case_decide; [intros Hv; first [congruence | by vm_compute in Hv]|]).
  case_bool_decide; [done|]. intros Hv. by vm_compute in Hv.
Qed.

(** X6: [lineStyle] gives the class hidden for the kind ping and for no
    other kind, and ping lines are skipped by the terminal: no line the
    terminal renders is styled hidden. *)
Theorem hidden_style_never_rendered (ls : list LogLine) :
  Forall (fun l => lineStyle (type l) <> OwnString (js "hidden")) (renderedLines ls) /\
  Forall (fun l => lineStyle (type l) = OwnString (js "hidden") <-> type l = js "ping") ls.
Proof.
  split.
  - apply Forall_forall. intros l [Hping _]%list_elem_of_filter.
    by intros ?%lineStyle_hidden.
  - apply Forall_forall. intros l _. apply lineStyle_hidden.
Qed.

Lemma hidden_style_never_rendered_witness :
  Forall (fun l => lineStyle (type l) <> OwnString (js "hidden")) (renderedLines demoLog).
Proof. apply (hidden_style_never_rendered demoLog). Defined.


(** ** Addresses *)

Lemma startsWith_app (p rest : jsstring) : startsWith (p ++ rest) p = true.
Proof. apply startsWith_spec. by exists rest. Qed.

Lemma replacePrefix_hit (p r rest : jsstring) :
  replacePrefix p r (p ++ rest) = r ++ rest.
Proof. unfold replacePrefix. by rewrite startsWith_app, drop_app_length. Qed.

(** X7: without a socket address of its own the page derives it from the
    API address by swapping the scheme: https becomes wss and http becomes
    ws, the rest of the address is kept, and any other address is used as
    it is.  The derived address never begins with http:// or https://, a
    secure API address never yields an insecure socket address, and with
    neither variable set the socket address is ws://localhost:3001.  A
    non-empty socket address of its own is used unchanged. *)
Theorem wsBase_scheme (envApi : option jsstring) :
  startsWith (wsBase envApi None) (js "http://") = false /\
  startsWith (wsBase envApi None) (js "https://") = false /\
  (forall rest, apiBase envApi = js "https://" ++ rest ->
                wsBase envApi None = js "wss://" ++ rest) /\
  (forall rest, apiBase envApi = js "http://" ++ rest ->
                wsBase envApi None = js "ws://" ++ rest) /\
  (startsWith (apiBase envApi) (js "https://") = false ->
   startsWith (apiBase envApi) (js "http://") = false ->
   wsBase envApi None = apiBase envApi) /\
  wsBase None None = js "ws://localhost:3001" /\
  (forall w, w <> [] -> wsBase envApi (Some w) = w).
Proof.
  unfold wsBase. simpl or_else. generalize (apiBase envApi). intros a.
  assert (Hs : forall rest, replacePrefix (js "http://") (js "ws://")
                 (replacePrefix (js "https://") (js "wss://") (js "https://" ++ rest))
               = js "wss://" ++ rest).
  { intros rest. by rewrite replacePrefix_hit. }
  assert (Hp : forall rest, replacePrefix (js "http://") (js "ws://")
                 (replacePrefix (js "https://") (js "wss://") (js "http://" ++ rest))
               = js "ws://" ++ rest).
  { intros rest. rewrite <- (replacePrefix_hit (js "http://") (js "ws://") rest).
    f_equal. }
  assert (Hn : startsWith a (js "https://") = false ->
               startsWith a (js "http://") = false ->
               replacePrefix (js "http://") (js "ws://")
                 (replacePrefix (js "https://") (js "wss://") a) = a).
  { intros H1 H2. unfold replacePrefix. by rewrite H1, H2. }
  split; [|split; [|split; [|split; [|split; [|split]]]]].
  - destruct (startsWith a (js "https://")) eqn:H1.
    + apply startsWith_spec in H1 as [rest ->]. by rewrite Hs.
    + destruct (startsWith a (js "http://")) eqn:H2.
      * apply startsWith_spec in H2 as [rest ->]. by rewrite Hp.
      * by rewrite Hn.
  - destruct (startsWith a (js "https://")) eqn:H1.
    + apply startsWith_spec in H1 as [rest ->]. by rewrite Hs.
    + destruct (startsWith a (js "http://")) eqn:H2.
      * apply startsWith_spec in H2 as [rest ->]. by rewrite Hp.
      * by rewrite Hn.
  - by intros rest ->.
  - by intros rest ->.
  - done.
  - reflexivity.
  - intros w Hw. by destruct w.
Qed.

Lemma wsBase_scheme_witness :
  wsBase (Some (js "https://api.example.org/v1")) None = js "wss://api.example.org/v1".
Proof.
  destruct (wsBase_scheme (Some (js "https://api.example.org/v1")))
    as (_ & _ & Hsecure & _).
  apply (Hsecure (js "api.example.org/v1")). reflexivity.
Defined.

(** ** What the page shows after a failure *)

(** X8: when the worker reports an error during a run, the run panels
    (progress strip and terminal) leave the page and the idea form comes
    back, with the error text under it when a user is signed in; the log is
    kept in the state as it was, but no line of it is rendered. *)
Theorem error_event_returns_to_form (s : State) (data : EventData) :
  reachable s -> running s = true -> user s <> None ->
  data_type data = js "error" ->
  showRunPanels s = true /\
  showRunPanels (handleEvent data s) = false /\
  showIdeaForm (handleEvent data s) = true /\
  errorBanner (handleEvent data s)
    = Some (or_else (data_msg data) (js "Agent error")) /\
  terminalLines (handleEvent data s) = [] /\
  lines (handleEvent data s) = lines s.
Proof.
  intros Hreach Hrun Huser Hkind.
  destruct (reachable_runningIsFresh s Hreach Hrun) as [Hdone _].
  rewrite (handleEvent_error _ _ Hkind).
  unfold showRunPanels, showIdeaForm, errorBanner, terminalLines, showIdeaForm,
    showRunPanels; simpl.
  rewrite Hrun, Hdone. simpl. rewrite (bool_decide_eq_true_2 _ Huser).
  rewrite bool_decide_eq_false_2 by (by apply or_else_nonempty). done.
Qed.

Lemma error_event_returns_to_form_witness :
  errorBanner (handleEvent (event "error" "rate limited") started)
    = Some (js "rate limited") /\
  terminalLines (handleEvent (event "error" "rate limited") started) = [].
Proof.
  destruct (error_event_returns_to_form started (event "error" "rate limited"))
    as (_ & _ & _ & Hbanner & Hterm & _).
  - by exists [SignedIn alice (js "tok123"); TypeIdea (js "AI code review tool");
               StartResearch true].
  - reflexivity.
  - discriminate.
  - reflexivity.
  - split; [exact Hbanner | exact Hterm].
Defined.

(** X9: when the event source fails during a run, [es.onerror] appends its
    connection-lost line to the log and ends the run in the same callback:
    the terminal leaves the page at that moment, so the line just written
    is not rendered; what the user sees is the idea form with the
    connection message under it. *)
Theorem connection_lost_line_not_rendered (s : State) (c : nat) :
  reachable s -> running s = true -> user s <> None ->
  lines (es_onerror c s)
    = lines s ++ [{| id := S (idRef s); type := js "error"; ts := Some [];
                     msg := data_msg connectionLostLine |}] /\
  terminalLines (es_onerror c s) = [] /\
  showRunPanels (es_onerror c s) = false /\
  showIdeaForm (es_onerror c s) = true /\
  errorBanner (es_onerror c s) = Some connectionFailedMessage.
Proof.
  intros Hreach Hrun Huser.
  destruct (reachable_runningIsFresh s Hreach Hrun) as [Hdone _].
  unfold showRunPanels, showIdeaForm, errorBanner, terminalLines, showIdeaForm,
    showRunPanels, es_onerror; simpl.
  rewrite Hdone. simpl. rewrite (bool_decide_eq_true_2 _ Huser). done.
Qed.

Lemma connection_lost_line_not_rendered_witness :
  length (lines (es_onerror 1 (run started [WsClose 0 1006]))) = 1 /\
  terminalLines (es_onerror 1 (run started [WsClose 0 1006])) = [].
Proof.
  destruct (connection_lost_line_not_rendered (run started [WsClose 0 1006]) 1)
    as (Hlines & Hterm & _).
  - exists [SignedIn alice (js "tok123"); TypeIdea (js "AI code review tool");
            StartResearch true; WsClose 0 1006].
    vm_compute. reflexivity.
  - vm_compute. reflexivity.
  - vm_compute. discriminate.
  - split; [|exact Hterm]. vm_compute. reflexivity.
Defined.

(** ** Signing in *)

(** X10: [submitAuth] issues a request exactly when the form is complete
    (address and password not blank; when signing up, a name of at least
    two code units after trimming).  The request carries the trimmed name
    and address and the password as typed, to the endpoint of the mode, and
    the form is then loading with its error text cleared.  Without a
    request the loading cell is untouched, and a blank address or password
    changes nothing at all.  Session, history and storage are never
    touched. *)
Theorem submitAuth_request_iff_complete (p : Page) :
  (formComplete (form p) <-> exists r, (submitAuth p).2 = Some r) /\
  (forall r, (submitAuth p).2 = Some r ->
     r = {| auth_endpoint := if isSignup (authMode (form p))
                             then js "/api/auth/signup" else js "/api/auth/login";
            auth_name := trim (authName (form p));
            auth_email := trim (authEmail (form p));
            auth_password := authPassword (form p) |} /\
     auth_email r <> [] /\ trimmed (auth_email r) /\ trimmed (auth_name r) /\
     authLoading (form (submitAuth p).1) = true /\
     authError (form (submitAuth p).1) = []) /\
  ((submitAuth p).2 = None ->
     authLoading (form (submitAuth p).1) = authLoading (form p)) /\
  (trim (authEmail (form p)) = [] \/ trim (authPassword (form p)) = [] ->
     submitAuth p = (p, None)) /\
  session (submitAuth p).1 = session p /\
  pane (submitAuth p).1 = pane p /\
  storage (submitAuth p).1 = storage p.
Proof.
  unfold submitAuth, formComplete.
  destruct (bool_decide (trim (authEmail (form p)) = [])) eqn:He;
    [apply bool_decide_eq_true in He | apply bool_decide_eq_false in He];
  (destruct (bool_decide (trim (authPassword (form p)) = [])) eqn:Hp;
    [apply bool_decide_eq_true in Hp | apply bool_decide_eq_false in Hp]);
  simpl.
  1-3: (split; [split; [intros (? & ? & _); done | intros [r Hr]; discriminate Hr]|];
        split; [intros r Hr; discriminate Hr|]; repeat split; done).
  destruct (isSignup (authMode (form p))) eqn:Hm; simpl.
  - destruct (length (trim (authName (form p))) <? 2) eqn:Hn; simpl.
    + apply Nat.ltb_lt in Hn.
      split; [split; [intros (_ & _ & Hlen); specialize (Hlen eq_refl); lia
                      | intros [r Hr]; discriminate Hr]|].
      split; [intros r Hr; discriminate Hr|].
      repeat split; try done. intros [?|?]; done.
    + apply Nat.ltb_ge in Hn.
      split; [split; [intros _; eauto | intros _; repeat split; done]|].
      split; [|repeat split; try done; intros [?|?]; done].
      intros r [= <-]. simpl. repeat split; try done; apply trim_trimmed.
  - split; [split; [intros _; eauto | intros _; repeat split; done]|].
    split; [|repeat split; try done; intros [?|?]; done].
    intros r [= <-]. simpl. repeat split; try done; apply trim_trimmed.
Qed.

Lemma submitAuth_request_iff_complete_witness :
  (submitAuth signupPage).2
  = Some {| auth_endpoint := js "/api/auth/signup"; auth_name := js "Alice";
            auth_email := js "alice@example.org"; auth_password := js " s3cret " |} /\
  submitAuth freshPage = (freshPage, None).
Proof.
  split.
  - destruct (submitAuth_request_iff_complete signupPage) as (_ & Hreq & _).
    destruct (submitAuth signupPage) as [p' [r|]] eqn:Hs;
      [|by vm_compute in Hs].
    destruct (Hreq r eq_refl) as (-> & _). by vm_compute.
  - destruct (submitAuth_request_iff_complete freshPage) as (_ & _ & _ & Hblank & _).
    apply Hblank. left. by vm_compute.
Defined.

(** X11: a sign-in request that fails, in whichever way, signs nobody in:
    session (user and token included), stored credentials and history are
    as before, nothing further is requested, the form stops loading and
    shows the message of the failure, and what was typed stays in the
    form.  A refusal without an error text reads Authentication failed. *)
Theorem failed_sign_in_changes_form_only (o : Outcome (jsstring * AuthUser)) (p : Page) :
  isFailure o ->
  (submitAuth_settled o p).2 = None /\
  session (submitAuth_settled o p).1 = session p /\
  storage (submitAuth_settled o p).1 = storage p /\
  pane (submitAuth_settled o p).1 = pane p /\
  authLoading (form (submitAuth_settled o p).1) = false /\
  Some (authError (form (submitAuth_settled o p).1))
    = caughtMessage o (js "Authentication failed") /\
  (o = Refused None \/ o = Refused (Some []) \/ o = ThrewOther ->
     authError (form (submitAuth_settled o p).1) = js "Authentication failed") /\
  authPassword (form (submitAuth_settled o p).1) = authPassword (form p) /\
  authEmail (form (submitAuth_settled o p).1) = authEmail (form p) /\
  authName (form (submitAuth_settled o p).1) = authName (form p).
Proof.
  destruct o as [m| |e|[t u]]; simpl; [| | |done]; intros _;
    repeat split; try done;
    intros [H|[H|H]]; try discriminate H; by injection H as ->.
Qed.

Lemma failed_sign_in_changes_form_only_witness :
  authError (form (submitAuth_settled (Refused (Some (js "Invalid credentials")))
                     (submitAuth signupPage).1).1)
  = js "Invalid credentials" /\
  user (session (submitAuth_settled (Refused (Some (js "Invalid credentials")))
                   (submitAuth signupPage).1).1) = None.
Proof.
  destruct (failed_sign_in_changes_form_only
              (Refused (Some (js "Invalid credentials"))) (submitAuth signupPage).1)
    as (_ & Hsession & _ & _ & _ & Herr & _).
  - exact I.
  - split; [vm_compute in Herr; vm_compute; congruence | by rewrite Hsession].
Defined.

(** What the effects do after a sign-in with a new token: the address of
    the user goes into the form, the history is asked for again (twice when
    a finished session is shown), and the session is as [submitAuth] left
    it. *)
Lemma tokenEffects_after_sign_in (t : jsstring) (u : AuthUser) (p : Page) :
  t <> [] ->
  tokenEffects (submitAuth_accepted t u p).1
  = ((submitAuth_accepted t u p).1 |> withForm (setAuthEmail (user_email u)),
     t :: (if done (session p) then [t] else [])).
Proof.
  intros Ht. unfold tokenEffects, restoreEffect, doneEffect, submitAuth_accepted, fetchHistory.
  rewrite !(bool_decide_eq_false_2 _ Ht). simpl.
  rewrite !(bool_decide_eq_false_2 _ Ht). simpl.
  destruct (done (session p)); simpl; rewrite ?(bool_decide_eq_false_2 _ Ht); done.
Qed.

Lemma settleAll_frame (os : list (Outcome (option (list HistoryItem)))) (p : Page) :
  session (settleAll os p) = session p /\
  form (settleAll os p) = form p /\
  storage (settleAll os p) = storage p.
Proof.
  revert p. induction os as [|o os IH]; intros p; [done|].
  unfold settleAll in *. simpl. destruct (IH (fetchHistory_settled o p)) as (-> & -> & ->).
  by destruct o.
Qed.

Lemma settleAll_failures (os : list (Outcome (option (list HistoryItem)))) (p : Page) :
  Forall isFailure os -> history (pane (settleAll os p)) = history (pane p).
Proof.
  revert p. induction os as [|o os IH]; intros p Hos; [done|].
  apply Forall_cons_1 in Hos as [Ho Hos].
  unfold settleAll in *. simpl. rewrite (IH _ Hos). by destruct o.
Qed.

Lemma settleAll_not_loading (os : list (Outcome (option (list HistoryItem)))) (p : Page) :
  historyLoading (pane p) = false -> historyLoading (pane (settleAll os p)) = false.
Proof.
  revert p. induction os as [|o os IH]; intros p Hp; [done|].
  unfold settleAll in *. simpl. apply IH. by destruct o.
Qed.

Lemma settleAll_last_failure
    (os : list (Outcome (option (list HistoryItem))))
    (o : Outcome (option (list HistoryItem))) (p : Page) :
  Forall isFailure os -> isFailure o ->
  Some (historyError (pane p)) = caughtMessage o (js "Failed to load history") ->
  Some (historyError (pane (settleAll os p)))
  = caughtMessage (default o (last os)) (js "Failed to load history").
Proof.
  revert o p. induction os as [|o' os IH]; intros o p Hos Ho Hp; [done|].
  apply Forall_cons_1 in Hos as [Ho' Hos].
  replace (default o (last (o' :: os))) with (default o' (last os))
    by (rewrite last_cons; by destruct (last os)).
  unfold settleAll in *. simpl. apply IH; [done..|]. by destruct o'.
Qed.

(** X12: a sign-in that succeeds with a new token holds whatever becomes of
    the history requests it sets off.  [submitAuth] waits for one; the
    render with the new token runs the two effects again, which put the
    address of the user into the form and ask for the history a second
    time, and a third time when a finished session is shown.  In whichever
    order the requests end, before or after the one [submitAuth] waits
    for: user and token are the ones received, the same pair is in the
    store, the dialog is closed, the form holds the address of the user,
    no password and no longer loads, its error text is untouched;
    requests that all fail leave the history list as it was, and the
    message of the one ending last is the one shown.  The history pane
    has stopped loading at the end.  The run and its transports are not
    touched. *)
Theorem sign_in_survives_history_failure
    (t : jsstring) (u : AuthUser) (p : Page)
    (h : Outcome (option (list HistoryItem)))
    (before after : list (Outcome (option (list HistoryItem)))) :
  t <> [] -> t <> token (session p) ->
  (submitAuth_settled (Accepted (t, u)) p).2 = Some t /\
  submitAuth_effectRequests (Accepted (t, u)) p
    = t :: (if done (session p) then [t] else []) /\
  form (submitAuth_settled (Accepted (t, u)) p).1
    = form p |> setAuthPassword [] |> setAuthEmail (user_email u) /\
  token (session (submitAuth_settled (Accepted (t, u)) p).1) = t /\
  historyLoading (pane (submitAuth_settled (Accepted (t, u)) p).1) = true /\
  user (session (settleAll after (submitAuth_finished h
          (settleAll before (submitAuth_settled (Accepted (t, u)) p).1))))
    = Some u /\
  token (session (settleAll after (submitAuth_finished h
           (settleAll before (submitAuth_settled (Accepted (t, u)) p).1))))
    = t /\
  storage (settleAll after (submitAuth_finished h
             (settleAll before (submitAuth_settled (Accepted (t, u)) p).1)))
    = {| sv_token := Some t; sv_user := Some u |} /\
  showAuthModal (session (settleAll after (submitAuth_finished h
                   (settleAll before (submitAuth_settled (Accepted (t, u)) p).1))))
    = false /\
  form (settleAll after (submitAuth_finished h
          (settleAll before (submitAuth_settled (Accepted (t, u)) p).1)))
    = form p |> setAuthPassword [] |> setAuthEmail (user_email u)
             |> setAuthLoading false /\
  historyLoading (pane (settleAll after (submitAuth_finished h
                    (settleAll before (submitAuth_settled (Accepted (t, u)) p).1))))
    = false /\
  (Forall isFailure (before ++ h :: after) ->
     history (pane (settleAll after (submitAuth_finished h
                      (settleAll before (submitAuth_settled (Accepted (t, u)) p).1))))
       = history (pane p) /\
     Some (historyError (pane (settleAll after (submitAuth_finished h
                      (settleAll before (submitAuth_settled (Accepted (t, u)) p).1)))))
       = caughtMessage (default h (last after)) (js "Failed to load history")) /\
  running (session (settleAll after (submitAuth_finished h
             (settleAll before (submitAuth_settled (Accepted (t, u)) p).1))))
    = running (session p) /\
  conns (session (settleAll after (submitAuth_finished h
           (settleAll before (submitAuth_settled (Accepted (t, u)) p).1))))
    = conns (session p) /\
  lines (session (settleAll after (submitAuth_finished h
           (settleAll before (submitAuth_settled (Accepted (t, u)) p).1))))
    = lines (session p).
Proof.
  intros Ht Hnew.
  assert (Hsettled : submitAuth_settled (Accepted (t, u)) p
                     = ((submitAuth_accepted t u p).1
                          |> withForm (setAuthEmail (user_email u)), Some t)).
  { unfold submitAuth_settled. rewrite (bool_decide_eq_false_2 _ Hnew).
    rewrite (tokenEffects_after_sign_in t u p Ht).
    unfold submitAuth_accepted, fetchHistory. by rewrite (bool_decide_eq_false_2 _ Ht). }
  assert (Hreq : submitAuth_effectRequests (Accepted (t, u)) p
                 = t :: (if done (session p) then [t] else [])).
  { unfold submitAuth_effectRequests. rewrite (bool_decide_eq_false_2 _ Hnew).
    by rewrite (tokenEffects_after_sign_in t u p Ht). }
  rewrite Hsettled, Hreq. clear Hsettled Hreq. cbn [fst snd].
  set (p1 := (submitAuth_accepted t u p).1 |> withForm (setAuthEmail (user_email u))).
  assert (Hp1 : session p1 = session p |> setToken t |> setUser (Some u)
                                       |> setShowAuthModal false /\
                form p1 = form p |> setAuthPassword [] |> setAuthEmail (user_email u) /\
                storage p1 = {| sv_token := Some t; sv_user := Some u |} /\
                pane p1 = pane p |> setHistoryLoading true |> setHistoryError []).
  { unfold p1, submitAuth_accepted, fetchHistory.
    by rewrite (bool_decide_eq_false_2 _ Ht). }
  destruct Hp1 as (Hsession & Hform & Hstorage & Hpane).
  set (pb := settleAll before p1).
  destruct (settleAll_frame before p1) as (Hbs & Hbf & Hbst). fold pb in Hbs, Hbf, Hbst.
  set (pm := submitAuth_finished h pb).
  assert (Hm : session pm = session pb /\ form pm = form pb |> setAuthLoading false /\
               storage pm = storage pb /\ historyLoading (pane pm) = false).
  { unfold pm, submitAuth_finished. by destruct h. }
  destruct Hm as (Hms & Hmf & Hmst & Hml).
  destruct (settleAll_frame after pm) as (Has & Haf & Hast).
  rewrite Has, Haf, Hast, Hms, Hmf, Hmst, Hbs, Hbf, Hbst, Hsession, Hform, Hstorage.
  rewrite Hpane.
  repeat split; try done.
  - by apply settleAll_not_loading.
  - apply Forall_app in H as [Hb Ha]. apply Forall_cons_1 in Ha as [Hh Ha].
    rewrite (settleAll_failures after pm Ha).
    unfold pm, submitAuth_finished.
    transitivity (history (pane pb)); [by destruct h|].
    unfold pb. by rewrite (settleAll_failures before p1 Hb), Hpane.
  - apply Forall_app in H as [Hb Ha]. apply Forall_cons_1 in Ha as [Hh Ha].
    apply settleAll_last_failure; [done..|].
    unfold pm, submitAuth_finished. by destruct h.
Qed.

Lemma sign_in_survives_history_failure_witness :
  submitAuth_effectRequests (Accepted (js "tok123", alice)) (submitAuth finishedPage).1
    = [js "tok123"; js "tok123"] /\
  user (session (settleAll [Refused None] (submitAuth_finished (Threw (js "Failed to fetch"))
          (settleAll [ThrewOther]
             (submitAuth_settled (Accepted (js "tok123", alice))
                (submitAuth finishedPage).1).1))))
    = Some alice /\
  authEmail (form (settleAll [Refused None] (submitAuth_finished (Threw (js "Failed to fetch"))
          (settleAll [ThrewOther]
             (submitAuth_settled (Accepted (js "tok123", alice))
                (submitAuth finishedPage).1).1))))
    = js "alice@example.org" /\
  authError (form (settleAll [Refused None] (submitAuth_finished (Threw (js "Failed to fetch"))
          (settleAll [ThrewOther]
             (submitAuth_settled (Accepted (js "tok123", alice))
                (submitAuth finishedPage).1).1))))
    = [] /\
  historyError (pane (settleAll [Refused None] (submitAuth_finished (Threw (js "Failed to fetch"))
          (settleAll [ThrewOther]
             (submitAuth_settled (Accepted (js "tok123", alice))
                (submitAuth finishedPage).1).1))))
    = js "Failed to load history".
Proof.
  destruct (sign_in_survives_history_failure (js "tok123") alice
              (submitAuth finishedPage).1 (Threw (js "Failed to fetch"))
              [ThrewOther] [Refused None])
    as (_ & Hreq & _ & _ & _ & Huser & _ & _ & _ & Hform & _ & Hfail & _).
  - by vm_compute.
  - by vm_compute.
  - destruct Hfail as [_ Herr]; [repeat constructor|].
    split; [etransitivity; [exact Hreq | vm_compute; reflexivity]|].
    split; [exact Huser|].
    split; [etransitivity; [exact (f_equal authEmail Hform) | vm_compute; reflexivity]|].
    split; [etransitivity; [exact (f_equal authError Hform) | vm_compute; reflexivity]|].
    apply (inj Some). etransitivity; [exact Herr | vm_compute; reflexivity].
Defined.

(** X13: [logout] wipes the credentials everywhere (user, token, both
    stored items, the password in the form) and the history list, after
    which neither the history list nor a history item can be requested.
    It does not end a run: the session cells of the run and the transport
    objects, with the token their requests were built with, are as
    before. *)
Theorem logout_wipes_credentials_keeps_run (p : Page) :
  user (session (logoutPage p)) = None /\
  token (session (logoutPage p)) = [] /\
  storage (logoutPage p) = {| sv_token := None; sv_user := None |} /\
  history (pane (logoutPage p)) = [] /\
  authPassword (form (logoutPage p)) = [] /\
  fetchHistory (token (session (logoutPage p))) (logoutPage p) = (logoutPage p, None) /\
  (forall itemId, openHistoryItem itemId (logoutPage p) = (logoutPage p, None)) /\
  running (session (logoutPage p)) = running (session p) /\
  done (session (logoutPage p)) = done (session p) /\
  lines (session (logoutPage p)) = lines (session p) /\
  result (session (logoutPage p)) = result (session p) /\
  connRef (session (logoutPage p)) = connRef (session p) /\
  conns (session (logoutPage p)) = conns (session p).
Proof. repeat split. Qed.

(** X14: opening an earlier search puts its result on the page as a
    finished session (done, not running, error text cleared, terminal
    collapsed), and touches neither the log nor the transports: a
    transport that was open stays open.  Without a token no request is
    made, and a failed request changes the history error text only. *)
Theorem opening_history_item (i d : option jsstring) (r : option ResearchResult)
    (o : Outcome (option jsstring * option jsstring * option ResearchResult))
    (itemId : jsstring) (p : Page) :
  (token (session p) = [] -> openHistoryItem itemId p = (p, None)) /\
  (token (session p) <> [] ->
     (openHistoryItem itemId p).2 = Some (itemId, token (session p)) /\
     session (openHistoryItem itemId p).1 = session p) /\
  (status (session (openHistoryItem_settled (Accepted (i, d, r)) p)) = Done /\
   running (session (openHistoryItem_settled (Accepted (i, d, r)) p)) = false /\
   result (session (openHistoryItem_settled (Accepted (i, d, r)) p)) = r /\
   error (session (openHistoryItem_settled (Accepted (i, d, r)) p)) = [] /\
   idea (session (openHistoryItem_settled (Accepted (i, d, r)) p)) = or_else i [] /\
   termCollapsed (session (openHistoryItem_settled (Accepted (i, d, r)) p)) = true /\
   lines (session (openHistoryItem_settled (Accepted (i, d, r)) p)) = lines (session p) /\
   connRef (session (openHistoryItem_settled (Accepted (i, d, r)) p))
     = connRef (session p) /\
   conns (session (openHistoryItem_settled (Accepted (i, d, r)) p))
     = conns (session p)) /\
  (isFailure o ->
     session (openHistoryItem_settled o p) = session p /\
     history (pane (openHistoryItem_settled o p)) = history (pane p) /\
     Some (historyError (pane (openHistoryItem_settled o p)))
       = caughtMessage o (js "Failed to open history")).
Proof.
  split; [|split; [|split]].
  - intros Ht. unfold openHistoryItem. by rewrite (bool_decide_eq_true_2 _ Ht).
  - intros Ht. unfold openHistoryItem. by rewrite (bool_decide_eq_false_2 _ Ht).
  - unfold openHistoryItem_settled, doneEffect, fetchHistory. simpl.
    destruct (done (session p)); [repeat split|].
    destruct (bool_decide (token (session p) = [])); repeat split.
  - destruct o as [m| |e|[[i' d'] r']]; simpl; [| | |done]; intros _; repeat split.
Qed.

Lemma opening_history_item_witness :
  status (session (openHistoryItem_settled
                     (Accepted (Some (js "Old idea"), None, Some {| json := js "{}" |}))
                     runningPage)) = Done /\
  conns (session (openHistoryItem_settled
                    (Accepted (Some (js "Old idea"), None, Some {| json := js "{}" |}))
                    runningPage))
  = [WebSocket theRequest false [] []] /\
  (openHistoryItem (js "h1") runningPage).2 = Some (js "h1", js "tok123").
Proof.
  destruct (opening_history_item (Some (js "Old idea")) None (Some {| json := js "{}" |})
              ThrewOther (js "h1") runningPage)
    as (_ & Hreq & (Hdone & _ & _ & _ & _ & _ & _ & _ & Hconns) & _).
  split; [exact Hdone|]. split; [rewrite Hconns; vm_compute; reflexivity|].
  apply Hreq. vm_compute. discriminate.
Defined.

(** ** The report block *)

(** X15: the report block shows at most the first 3000 code units of the
    summary, and the note with the total length stands under it exactly
    when something was cut off; an empty summary gives no block. *)
Theorem summary_note_iff_truncated (summary : jsstring) :
  (summary = [] <-> summaryBlock summary = None) /\
  (forall shown note, summaryBlock summary = Some (shown, note) ->
     length shown <= 3000 /\
     shown `prefix_of` summary /\
     (note = None <-> shown = summary) /\
     (forall text, note = Some text ->
        3000 < length summary /\ length shown = 3000 /\
        text = js "[" ++ numberToString (Z.of_nat (length summary))
                 ++ js " total chars]")).
Proof.
  split; [by destruct summary|].
  intros shown note.
  assert (Hblock : summary <> [] ->
            summaryBlock summary
            = Some (take 3000 summary,
                    if 3000 <? length summary
                    then Some (js "[" ++ numberToString (Z.of_nat (length summary))
                                 ++ js " total chars]")
                    else None)) by (by destruct summary).
  destruct (decide (summary = [])) as [->|Hne]; [done|].
  rewrite (Hblock Hne). clear Hblock.
  intros [= <- <-]. split; [rewrite length_take; lia|].
  split; [apply prefix_take|].
  destruct (3000 <? length summary) eqn:Hlen;
    [apply Nat.ltb_lt in Hlen | apply Nat.ltb_ge in Hlen].
  - split.
    + split; [done|]. intros Heq. apply (f_equal length) in Heq.
      rewrite length_take in Heq. lia.
    + intros text [= <-]. rewrite length_take. split; [done|]. split; [lia | done].
  - split; [|done]. split; [|done]. intros _. by apply take_ge.
Qed.

Lemma summary_note_iff_truncated_witness :
  exists shown, summaryBlock (replicate 3001 32%N) = Some (shown, Some (js "[3001 total chars]"))
                /\ length shown = 3000.
Proof.
  destruct (summary_note_iff_truncated (replicate 3001 32%N)) as [_ Hblock].
  destruct (summaryBlock (replicate 3001 32%N)) as [[shown [text|]]|] eqn:Hs;
    [|by vm_compute in Hs|by vm_compute in Hs].
  destruct (Hblock shown (Some text) eq_refl) as (_ & _ & _ & Hnote).
  destruct (Hnote text eq_refl) as (_ & Hlen & ->).
  exists shown. split; [|exact Hlen]. vm_compute. reflexivity.
Defined.

(** ** The fallback request *)

(** X16: the event source opened by the fallback carries the request the
    socket was constructed with, whatever has become of the page since:
    the idea and description as trimmed at the start and the token of that
    moment, also after the user has logged out or typed something else.
    Either socket handler appends exactly one such object and makes it
    current. *)
Theorem fallback_reissues_start_request (s : State) (c : nat) (req : Request)
    (sent : list Request) (calls : list CloseCall) (code : Z) :
  conns s !! c = Some (WebSocket req false sent calls) -> code <> 1000%Z ->
  (conns (step s (WsClose c code)) = conns s ++ [EventSource req false] /\
   connRef (step s (WsClose c code)) = Some (length (conns s))) /\
  (conns (step s (WsError c))
     = alter (closeConn ClosePlain) c (conns s) ++ [EventSource req false] /\
   connRef (step s (WsError c)) = Some (length (conns s))) /\
  (forall a, a = Logout \/ (exists v, a = TypeIdea v) \/ (exists v, a = TypeDescription v) ->
     conns (step (step s a) (WsClose c code)) = conns s ++ [EventSource req false]).
Proof.
  intros Hc Hcode.
  destruct (abnormal_close_falls_back s c req sent calls code Hc Hcode) as (H1 & H2 & _).
  split; [done|]. split.
  - rewrite (error_falls_back s c req false sent calls Hc). split; [done|].
    cbn [step]. rewrite Hc. unfold ws_onerror. destruct req. simpl.
    by rewrite length_alter.
  - intros a [-> | [[v ->] | [v ->]]].
    + by destruct (abnormal_close_falls_back (step s Logout) c req sent calls code Hc Hcode)
        as (-> & _).
    + by destruct (abnormal_close_falls_back (step s (TypeIdea v)) c req sent calls code
                     Hc Hcode) as (-> & _).
    + by destruct (abnormal_close_falls_back (step s (TypeDescription v)) c req sent calls
                     code Hc Hcode) as (-> & _).
Qed.

Lemma fallback_reissues_start_request_witness :
  token loggedOutDuringRun = [] /\
  conns (step loggedOutDuringRun (WsClose 0 1006))
  = [WebSocket theRequest false [] []; EventSource theRequest false].
Proof.
  split; [vm_compute; reflexivity|].
  destruct (fallback_reissues_start_request started 0 theRequest [] [] 1006)
    as (_ & _ & Hlater).
  - vm_compute. reflexivity.
  - discriminate.
  - unfold loggedOutDuringRun.
    change (run started [Logout]) with (step started Logout).
    rewrite (Hlater Logout) by (by left). vm_compute. reflexivity.
Defined.

(** ** The log only grows *)

Lemma handleEvent_log_grows (data : EventData) (s : State) :
  lines (handleEvent data s) = lines s \/
  exists l, lines (handleEvent data s) = lines s ++ [l].
Proof.
  unfold handleEvent. repeat case_decide.
  - by left.
  - left. by rewrite (proj1 (lines_closeCurrent _ _)).
  - by left.
  - right. eexists. reflexivity.
Qed.

Lemma step_log_grows (s : State) (a : Action) :
  ~ clearsLog a ->
  lines (step s a) = lines s \/ exists l, lines (step s a) = lines s ++ [l].
Proof.
  intros Ha.
  destruct a as [v|v|u t| |i d r|ctorOk| |c|c frame|c|c code|c frame|c|u t|v| |v];
    cbn [step];
    try destruct (conns s !! c) as [[req completed sent calls|req closed]|];
    try (by left).
  - destruct Ha. right. by exists ctorOk.
  - destruct Ha. by left.
  - unfold ws_onmessage. destruct frame as [payload|]; [|by left].
    case_decide; [|apply handleEvent_log_grows].
    apply (handleEvent_log_grows payload (setConns (alter markCompleted c (conns s)) s)).
  - unfold ws_onclose. case_match; by left.
  - destruct frame as [data|]; [apply handleEvent_log_grows | by left].
  - right. eexists. reflexivity.
  - unfold storedSession. case_bool_decide; by left.
Qed.

(** X17: the log is append-only.  A callback other than [reset] and
    [startResearch] leaves the log as it is or adds one line at its end;
    so over any sequence of such callbacks the log at the start remains,
    unchanged and in order, the beginning of the log at the end. *)
Theorem log_append_only (s : State) (tr : list Action) :
  Forall (fun a => ~ clearsLog a) tr ->
  lines s `prefix_of` lines (run s tr) /\
  (forall a, ~ clearsLog a ->
     lines (step s a) = lines s \/ exists l, lines (step s a) = lines s ++ [l]).
Proof.
  intros Htr. split; [|intros a; apply step_log_grows].
  induction tr as [|a tr IH] using rev_ind; [done|].
  apply Forall_app in Htr as [Htr Ha]. apply Forall_cons_1 in Ha as [Ha _].
  rewrite run_snoc. etrans; [by apply IH|].
  destruct (step_log_grows (run s tr) a Ha) as [-> | [l ->]]; [done|].
  by apply prefix_app_r.
Qed.

Lemma log_append_only_witness :
  lines planLogged `prefix_of` lines (run planLogged laterEvents) /\
  length (lines (run planLogged laterEvents)) = 3.
Proof.
  destruct (log_append_only planLogged laterEvents) as [Hprefix _].
  - unfold laterEvents. repeat constructor; intros [H|[b H]]; discriminate H.
  - split; [exact Hprefix|]. vm_compute. reflexivity.
Defined.

(** ** Resetting twice *)

(** X18: [reset] may be repeated.  A second [reset] leaves every state cell
    as the first one left it; its only effect is one more call of [close]
    on the transport object [connRef] holds, which the first one had closed
    already.  No transport object is added or dropped. *)
Theorem reset_twice (s : State) :
  setConns (conns (reset s)) (reset (reset s)) = reset s /\
  connRef (reset (reset s)) = connRef s /\
  length (conns (reset (reset s))) = length (conns s) /\
  conns (reset (reset s))
  = match connRef s with
    | Some c => alter (closeConn (CloseWith 1000 (js "reset"))) c (conns (reset s))
    | None => conns s
    end /\
  (forall c x, connRef s = Some c -> conns (reset s) !! c = Some x ->
     closedByComponent x = true).
Proof.
  split; [|split; [|split; [|split]]].
  - unfold reset, closeCurrent, closeAt. destruct s as [? ? ? ? ? ? ? ? ? ? ? ? ? ? [c|] ?];
      reflexivity.
  - unfold reset, closeCurrent, closeAt. destruct s as [? ? ? ? ? ? ? ? ? ? ? ? ? ? [c|] ?];
      reflexivity.
  - unfold reset, closeCurrent, closeAt. destruct s as [? ? ? ? ? ? ? ? ? ? ? ? ? ? [c|] ?];
      simpl; [by rewrite !length_alter | reflexivity].
  - unfold reset, closeCurrent, closeAt. destruct s as [? ? ? ? ? ? ? ? ? ? ? ? ? ? [c|] ?];
      reflexivity.
  - intros c x Href Hx. unfold reset in Hx. simpl in Hx.
    unfold closeCurrent, closeAt in Hx. rewrite Href in Hx. simpl in Hx.
    rewrite list_lookup_alter_eq in Hx.
    destruct (conns s !! c) as [y|]; [|done]. simpl in Hx.
    injection Hx as <-. apply closeConn_closed.
Qed.

Lemma reset_twice_witness :
  setConns (conns (reset started)) (reset (reset started)) = reset started /\
  conns (reset (reset started))
  = [WebSocket theRequest false []
       [CloseWith 1000 (js "reset"); CloseWith 1000 (js "reset")]].
Proof.
  destruct (reset_twice started) as (Hcells & _ & _ & Hconns & _).
  split; [exact Hcells|]. rewrite Hconns. vm_compute. reflexivity.
Defined.

